(** * sh-profile: a shallow embedding of [script.py]

    The first part embeds the source: the string interner
    ([UniqueStringArray]), the ANSI filter ([strip_ansi]), the trace
    recorder ([run_command]), the profile builder ([build_profile]), the
    one-shot publication server ([ServeFile], [open_profile]) and [main].
    The second part states and proves the properties of each component.

    Modelling conventions.
    - A Python [str] is a [string]; a character is a code point below 256.
      On that range [\d] is exactly [0-9] and the white space removed by
      [str.strip] is the set listed in [isspace].
    - A Python [int] is a [Z].
    - A Python [float] holding a time (seconds or milliseconds) is an exact
      rational [Qc]: the program only multiplies a finite time stamp by
      [1000.0] and subtracts two of them. The proofs use two facts of this
      arithmetic, [x - x = 0] and the monotonicity of both operations in
      their first argument; rounding is not modelled.
    - A [dict] is a [gmap]; a [list] is a [list].
    - Output and process effects are recorded as a trace of [event]s;
      an exception is the [Raise] case of [result].
    - An incoming HTTP request is described by what the handler base class
      makes of it (not read, rejected, or accepted with a method), by
      whether it is answered in the HTTP/0.9 way, and by which of the
      socket writes of the answer fail. *)

From Stdlib Require Import Ascii QArith Qcanon.
From stdpp Require Import gmap strings list numbers pretty sorting.

Local Open Scope string_scope.
Local Open Scope Z_scope.
Local Open Scope list_scope.

(** ** Effects *)

Inductive stream := Stdout | Stderr.

Inductive exn :=
  | ValueError (msg : string)
  | IndexError (msg : string)
  | Exception (msg : string).

(** What the program does to the outside, in order. *)
Inductive event :=
  | Print (f : stream) (text : string)   (* [print(text, file=f)] *)
  | PrintHelp (f : stream)               (* argparse writes the help to [f] *)
  | Popen (cmdline : string)             (* a shell runs [cmdline] *)
  | BrowserOpen (url : string)           (* [webbrowser.open(url)] *)
  | SendHeaders (status : Z) (headers : list (string * string))
  | WriteBody (data : string)            (* [wfile.write(data)] succeeded *)
  | SendError (status : Z)               (* status line and headers of an
                                            error answer of the base class *)
  | WriteErrorPage (status : Z)          (* the page that explains the error *)
  | Traceback.                           (* an exception escaped the handler:
                                            the server reports it on standard
                                            error and goes on *)

Inductive result (A : Type) :=
  | Return (a : A)
  | Raise (e : exn).
Arguments Return {A} a.
Arguments Raise {A} e.

Global Instance stream_eq_dec : EqDecision stream.
Proof. solve_decision. Defined.
Global Instance exn_eq_dec : EqDecision exn.
Proof. solve_decision. Defined.
Global Instance event_eq_dec : EqDecision event.
Proof. solve_decision. Defined.

(** ** Python built-ins used by the source *)

Module Py.

(** [sys.maxsize] of a 64-bit build: the largest index-sized integer. *)
Definition maxsize : Z := 2 ^ 63 - 1.

(** [l[i]] on a list: negative indices count from the end, anything
    outside [-len(l) <= i < len(l)] raises [IndexError], with another
    message when [i] is not an index-sized integer. A list has at most
    [maxsize] elements, so an index inside the list is always index-sized:
    testing the range first gives the same answer on every list that can
    exist. *)
Definition getitem {A} (l : list A) (i : Z) : result A :=
  let n := Z.of_nat (length l) in
  let j := if decide (i < 0) then n + i else i in
  if decide (0 <= j < n) then
    match l !! Z.to_nat j with
    | Some x => Return x
    | None => Raise (IndexError "list index out of range")
    end
  else if decide (- maxsize - 1 <= i <= maxsize) then
    Raise (IndexError "list index out of range")
  else Raise (IndexError "cannot fit 'int' into an index-sized integer").

(** [enumerate(l)]. *)
Definition enumerate {A} (l : list A) : list (Z * A) :=
  imap (λ i x, (Z.of_nat i, x)) l.

(** [{k: v for ...}]: pairs are stored left to right, a later pair
    overwrites an earlier one with the same key. *)
Definition dict_of `{Countable K} {V} (kvs : list (K * V)) : gmap K V :=
  foldl (λ m kv, <[kv.1 := kv.2]> m) ∅ kvs.

(** Truth value of an [Optional[str]]: [None] and [""] are false. *)
Definition truthy (o : option string) : bool :=
  match o with
  | Some (String _ _) => true
  | _ => false
  end.

(** [s[:-1]]. *)
Fixpoint drop_last (s : string) : string :=
  match s with
  | "" => ""
  | String a "" => ""
  | String a s' => String a (drop_last s')
  end.

(** White space as [str.strip] and [str.isspace] see it, for code points
    below 256: TAB..CR, FS..US, space, NEL and NBSP. *)
Definition isspace (a : ascii) : bool :=
  let n := N_of_ascii a in
  ((9 <=? n) && (n <=? 13) || (28 <=? n) && (n <=? 32)
   || (n =? 133) || (n =? 160))%N.

Fixpoint lstrip (s : string) : string :=
  match s with
  | "" => ""
  | String a s' => if isspace a then lstrip s' else s
  end.

(** [rstrip] keeps a character when it is not white space or when
    something remains to its right. *)
Fixpoint rstrip (s : string) : string :=
  match s with
  | "" => ""
  | String a s' =>
      match rstrip s' with
      | "" => if isspace a then "" else String a ""
      | t => String a t
      end
  end.

(** [s.strip()]. *)
Definition strip (s : string) : string := rstrip (lstrip s).

(** Truth value of a [str]. *)
Definition nonempty (s : string) : bool :=
  match s with "" => false | _ => true end.

(** [a in s] for a character [a]. *)
Fixpoint mem (a : ascii) (s : string) : bool :=
  match s with
  | "" => false
  | String b s' => Ascii.eqb a b || mem a s'
  end.

(** [all(p(a) for a in s)] *)
Fixpoint all (p : ascii → bool) (s : string) : bool :=
  match s with
  | "" => true
  | String a s' => p a && all p s'
  end.

End Py.

(** ** The string interner: [class UniqueStringArray] *)

Record UniqueStringArray := mkUniqueStringArray {
  _array : list string;
  _string_to_index : gmap string Z
}.

(** [__init__(self, original_array=None)] *)
Definition UniqueStringArray_init (original_array : option (list string))
  : UniqueStringArray :=
  let original_array := default [] original_array in
  {| _array := original_array;
     _string_to_index :=
       Py.dict_of ((λ p, (p.2, p.1)) <$> Py.enumerate original_array) |}.

(** [has_index(self, index)] *)
Definition has_index (self : UniqueStringArray) (index : Z) : bool :=
  bool_decide (index < Z.of_nat (length (_array self))).

Definition not_in_msg (index : Z) : string :=
  "index " +:+ pretty index +:+ " not in UniqueStringArray".

(** [get_string(self, index, els=None)]: what is printed and the outcome. *)
Definition get_string (self : UniqueStringArray) (index : Z)
    (els : option string) : list event * result string :=
  if negb (has_index self index) then
    if Py.truthy els then
      ([Print Stdout (not_in_msg index)], Return (default "" els))
    else ([], Raise (ValueError (not_in_msg index)))
  else ([], Py.getitem (_array self) index).

(** [has_string(self, s)] *)
Definition has_string (self : UniqueStringArray) (s : string) : bool :=
  bool_decide (is_Some (_string_to_index self !! s)).

(** [index_for_string(self, s)]: the index and the updated interner. *)
Definition index_for_string (self : UniqueStringArray) (s : string)
  : Z * UniqueStringArray :=
  match _string_to_index self !! s with
  | Some index => (index, self)
  | None =>
      let index := Z.of_nat (length (_array self)) in
      (index, {| _array := _array self ++ [s];
                 _string_to_index := <[s := index]> (_string_to_index self) |})
  end.

(** [serialize_to_array(self)] *)
Definition serialize_to_array (self : UniqueStringArray) : list string :=
  _array self.

(** Interning a sequence of strings one after the other: the indices
    returned, in call order, and the final interner. *)
Fixpoint intern_all (self : UniqueStringArray) (ss : list string)
  : list Z * UniqueStringArray :=
  match ss with
  | [] => ([], self)
  | s :: ss' =>
      let '(i, self1) := index_for_string self s in
      let '(rest, self2) := intern_all self1 ss' in
      (i :: rest, self2)
  end.

(** ** The ANSI filter: [strip_ansi] *)

Module Re.

(** The fragment of Python's [re] syntax the source uses. *)
Inductive regex :=
  | Chr (c : ascii)            (* a literal character *)
  | Digit                      (* [\d] *)
  | Cat (r1 r2 : regex)        (* [r1 r2] *)
  | Plus (r : regex)           (* [r+], greedy *)
  | Upto (n : nat) (r : regex) (* [r{0,n}], greedy *).

Definition is_digit (a : ascii) : bool :=
  let n := N_of_ascii a in ((48 <=? n) && (n <=? 57))%N.

(** A backtracking matcher in continuation style, as [re] runs it:
    [bt r s k] matches [r] at the start of [s] and hands the rest to [k];
    a greedy repetition first tries one more iteration and falls back to
    the continuation when that fails. [Plus r] is one [r] followed by
    as many more as the input allows (every iteration of the patterns
    used here consumes a character). *)
Fixpoint bt (r : regex) (s : string) (k : string → option string)
  : option string :=
  let rep (r' : regex) :=
    fix rep (n : nat) (s : string) : option string :=
      match n with
      | O => k s
      | S n' =>
          match bt r' s (rep n') with
          | Some x => Some x
          | None => k s
          end
      end in
  match r with
  | Chr c =>
      match s with
      | String a s' => if Ascii.eqb a c then k s' else None
      | "" => None
      end
  | Digit =>
      match s with
      | String a s' => if is_digit a then k s' else None
      | "" => None
      end
  | Cat r1 r2 => bt r1 s (λ s', bt r2 s' k)
  | Plus r' => bt r' s (λ s', rep r' (String.length s') s')
  | Upto n r' => rep r' n s
  end.

(** [pattern.match(s)]: the number of characters the match spans. *)
Definition match_len (r : regex) (s : string) : option nat :=
  (λ rest, (String.length s - String.length rest)%nat) <$> bt r s Some.

(** [pattern.sub("", s)] for a pattern without empty matches: scan left
    to right; at a position where the pattern matches drop the matched
    characters and resume behind them, elsewhere copy one character.
    [skip] counts the characters of the current match still to drop. *)
Fixpoint sub_empty (r : regex) (skip : nat) (s : string) : string :=
  match s with
  | "" => ""
  | String a s' =>
      match skip with
      | S n => sub_empty r n s'
      | O =>
          match match_len r s with
          | Some (S n) => sub_empty r n s'
          | _ => String a (sub_empty r O s')
          end
      end
  end.

End Re.

Definition ESC : ascii := ascii_of_N 27.

(** [re.compile(r"\x1B\[\d+(;\d+){0,2}m")] *)
Definition pattern : Re.regex :=
  Re.Cat (Re.Chr ESC)
    (Re.Cat (Re.Chr "[")
       (Re.Cat (Re.Plus Re.Digit)
          (Re.Cat (Re.Upto 2 (Re.Cat (Re.Chr ";") (Re.Plus Re.Digit)))
             (Re.Chr "m")))).

(** [strip_ansi(string)]; the lazily compiled global is the constant
    [pattern]. *)
Definition strip_ansi (s : string) : string := Re.sub_empty pattern 0 s.

(** ** The trace recorder: [run_command] *)

(** A [datetime] is known through the two observations the program makes
    of it: [dt.timestamp()] (POSIX seconds) and [dt.strftime(fmt)]. *)
Record datetime := mkDatetime {
  timestamp : Qc;
  strftime : string → string
}.

Module Shlex.

Definition isalnum (a : ascii) : bool :=
  let n := N_of_ascii a in
  ((48 <=? n) && (n <=? 57) || (65 <=? n) && (n <=? 90)
   || (97 <=? n) && (n <=? 122))%N.

(** Characters outside [[^\w@%+=:,./-]] (ASCII flag). *)
Definition safe (a : ascii) : bool := isalnum a || Py.mem a "_@%+=:,./-".

Definition dquote : string := String (ascii_of_N 34) "".

(** [s.replace("'", r)] *)
Fixpoint replace_squote (r : string) (s : string) : string :=
  match s with
  | "" => ""
  | String a s' =>
      (if Ascii.eqb a "'" then r else String a "") +:+ replace_squote r s'
  end.

(** [shlex.quote(s)] *)
Definition quote (s : string) : string :=
  match s with
  | "" => "'" +:+ "'"
  | _ =>
      if Py.all safe s then s
      else "'" +:+ replace_squote ("'" +:+ dquote +:+ "'" +:+ dquote +:+ "'") s
           +:+ "'"
  end.

(** [shlex.join(command)] *)
Definition join (command : list string) : string :=
  String.concat " " (quote <$> command).

End Shlex.

(** The loop over [process.stdout]. Every line comes with the value
    [datetime.now()] has while that line is handled; the clock is only read
    for a line that is stored. *)
Fixpoint read_lines (stdout : list (string * datetime))
  : list event * list (datetime * string) :=
  match stdout with
  | [] => ([], [])
  | (line, now) :: stdout' =>
      let '(trace, buffer) := read_lines stdout' in
      (Print Stdout (Py.drop_last line) :: trace,
       if Py.nonempty (Py.strip line)
       then (now, strip_ansi line) :: buffer
       else buffer)
  end.

(** [run_command(command)]; [stdout] is [process.stdout], [None] when the
    process has no such stream. *)
Definition run_command (command : list string)
    (stdout : option (list (string * datetime)))
  : list event * result (list (datetime * string)) :=
  match stdout with
  | None => ([Popen (Shlex.join command)], Raise (Exception "No process stdout"))
  | Some lines =>
      let '(trace, buffer) := read_lines lines in
      (Popen (Shlex.join command) :: trace, Return buffer)
  end.

(** ** The profile document *)

Record Category := mkCategory {
  category_name : string;
  category_color : string;
  category_subcategories : list string
}.

(** The payload of one marker: the dict appended to [markers["data"]]. *)
Record MarkerData := mkMarkerData {
  data_type : string;
  data_name : string;
  data_line : string;
  data_hour : string;
  data_date : string
}.

(** [thread["markers"]]: parallel columns and their [length] entry. *)
Record MarkerTable := mkMarkerTable {
  markers_data : list MarkerData;
  markers_name : list Z;
  markers_startTime : list Qc;
  markers_endTime : list (option Qc);
  markers_phase : list Z;
  markers_category : list Z;
  markers_length : Z
}.

(** The entries of the thread dict that [build_profile] reads or writes;
    the others are the constant empty tables of [get_empty_thread]. *)
Record Thread := mkThread {
  thread_processType : string;
  thread_name : string;
  thread_isMainThread : bool;
  thread_pid : string;
  thread_tid : Z;
  thread_markers : MarkerTable;
  thread_stringArray : list string
}.

(** The entries of [profile["meta"]] that vary or identify the producer;
    the others are constants of [get_empty_profile]. *)
Record Meta := mkMeta {
  meta_interval : Z;
  meta_startTime : Qc;
  meta_categories : list Category;
  meta_product : string;
  meta_version : Z;
  meta_preprocessedProfileVersion : Z
}.

Record Profile := mkProfile {
  profile_meta : Meta;
  profile_libs : list string;
  profile_pages : list string;
  profile_threads : list Thread
}.

(** [get_categories()] *)
Definition get_categories : list Category :=
  [ {| category_name := "sh-profile";
       category_color := "lightblue";
       category_subcategories := ["Other"] |} ].

(** [get_empty_profile()]; [now] is the value of [time.time()]. *)
Definition get_empty_profile (now : Qc) : Profile :=
  {| profile_meta :=
       {| meta_interval := 1;
          meta_startTime := (now * Qc_of_Z 1000)%Qc;
          meta_categories := get_categories;
          meta_product := "sh-profile";
          meta_version := 29;
          meta_preprocessedProfileVersion := 48 |};
     profile_libs := [];
     profile_pages := [];
     profile_threads := [] |}.

(** [get_empty_thread()] *)
Definition get_empty_thread : Thread :=
  {| thread_processType := "default";
     thread_name := "Empty";
     thread_isMainThread := true;
     thread_pid := "0";
     thread_tid := 0;
     thread_markers :=
       {| markers_data := []; markers_name := []; markers_startTime := [];
          markers_endTime := []; markers_phase := []; markers_category := [];
          markers_length := 0 |};
     thread_stringArray := [] |}.

(** [get_timestamp_ms(dt)] *)
Definition get_timestamp_ms (dt : datetime) : Qc :=
  (timestamp dt * Qc_of_Z 1000)%Qc.

(** ** The profile builder: [build_profile] *)

Definition set_startTime (t : Qc) (m : Meta) : Meta :=
  {| meta_interval := meta_interval m;
     meta_startTime := t;
     meta_categories := meta_categories m;
     meta_product := meta_product m;
     meta_version := meta_version m;
     meta_preprocessedProfileVersion := meta_preprocessedProfileVersion m |}.

(** One turn of [for dt, line in buffer]: the state is the marker table
    (reached through [thread["markers"]]) and the interner. *)
Definition add_marker (profile_start_time : Qc)
    (category_index_dict : gmap string Z)
    (st : MarkerTable * UniqueStringArray) (ev : datetime * string)
  : MarkerTable * UniqueStringArray :=
  let '(markers, string_array) := st in
  let '(dt, line) := ev in
  let run_start := get_timestamp_ms dt in
  let instant_marker := 0 in
  let '(name_index, string_array) :=
    index_for_string string_array "sh-profile" in
  ({| markers_startTime :=
        markers_startTime markers ++ [(run_start - profile_start_time)%Qc];
      markers_endTime := markers_endTime markers ++ [None];
      markers_phase := markers_phase markers ++ [instant_marker];
      markers_category :=
        markers_category markers
        ++ [default 0 (category_index_dict !! "sh-profile")];
      markers_name := markers_name markers ++ [name_index];
      markers_data :=
        markers_data markers
        ++ [ {| data_type := "sh-profile";
                data_name := "sh-profile";
                data_line := line;
                data_hour := strftime dt "%H:%M:%S";
                data_date := strftime dt "%Y-%m-%d" |} ];
      markers_length := markers_length markers + 1 |},
   string_array).

(** [build_profile(buffer)]; [now] is the clock value [get_empty_profile]
    reads. *)
Definition build_profile (now : Qc) (buffer : list (datetime * string))
  : Profile :=
  let profile := get_empty_profile now in
  let profile_start_time :=
    match buffer with
    | (dt, _) :: _ => get_timestamp_ms dt
    | [] => 0%Qc
    end in
  let meta :=
    match buffer with
    | _ :: _ => set_startTime profile_start_time (profile_meta profile)
    | [] => profile_meta profile
    end in
  let thread := get_empty_thread in
  let category_index_dict :=
    Py.dict_of
      ((λ p, (category_name p.2, p.1)) <$> Py.enumerate (meta_categories meta))
  in
  let string_array := UniqueStringArray_init None in
  let '(markers, string_array) :=
    foldl (add_marker profile_start_time category_index_dict)
      (thread_markers thread, string_array) buffer in
  {| profile_meta := meta;
     profile_libs := profile_libs profile;
     profile_pages := profile_pages profile;
     profile_threads :=
       profile_threads profile
       ++ [ {| thread_processType := thread_processType thread;
               thread_name := "sh-profile";
               thread_isMainThread := true;
               thread_pid := thread_pid thread;
               thread_tid := thread_tid thread;
               thread_markers := markers;
               thread_stringArray := serialize_to_array string_array |} ] |}.

(** The marker table of the thread [build_profile] attaches. *)
Definition built_markers (p : Profile) : MarkerTable :=
  match profile_threads p with
  | t :: _ => thread_markers t
  | [] => thread_markers get_empty_thread
  end.

(** ** The publication server: [ServeFile] and [open_profile] *)

(** The module globals [waiting_for_request] and [profile_data]. *)
Record globals := mkGlobals {
  waiting_for_request : bool;
  profile_data : option string
}.

Definition initial_globals : globals :=
  {| waiting_for_request := true; profile_data := None |}.

(** How the handler base class reads an incoming connection, before any
    code of [ServeFile] runs. *)
Inductive reading :=
  | NoRequestLine   (* no connection is accepted, or it brings no request
                       line or a blank one: nothing is answered *)
  | ReadFails       (* reading the request raises *)
  | Refused (status : Z) (head_method : bool)
                    (* the request line or the headers are rejected with
                       [send_error(status)]: 400, 414, 431 or 505;
                       [head_method] when the method is already known to be
                       HEAD *)
  | Parsed (command : string).
                    (* the request is accepted with this method *)

(** An incoming request: how it is read; whether the answer is written in
    the HTTP/0.9 way, without status line and headers; whether writing the
    status line and headers raises; and whether writing a body raises,
    with the text of the exception. *)
Record request := mkRequest {
  request_reading : reading;
  request_version09 : bool;
  request_head_fails : bool;
  request_body_error : option string
}.

(** Handler code returns ([true]) or lets an exception escape ([false]).
    [end_headers()] writes the buffered status line and headers in one
    piece; nothing is buffered or written for an HTTP/0.9 request. *)
Definition write_head (r : request) (e : event) : list event * bool :=
  if request_version09 r then ([], true)
  else if request_head_fails r then ([], false)
  else ([e], true).

(** [ServeFile._set_headers]; besides the two headers of the source
    [send_response] adds the [Server] and [Date] headers. *)
Definition _set_headers (r : request) : list event * bool :=
  write_head r
    (SendHeaders 200 [("Content-type", "application/json");
                      ("Access-Control-Allow-Origin", "*")]).

(** [ServeFile.do_HEAD] *)
Definition do_HEAD (g : globals) (r : request) : list event * globals * bool :=
  let '(head, ok) := _set_headers r in (head, g, ok).

(** [ServeFile.do_GET]: [_set_headers()] runs before the [try], so a
    failure there escapes and the flag stays set; a failed write of the
    body (or a missing [profile_data]) is reported on standard output,
    the message followed by the text of the exception, and swallowed; the
    flag is cleared on both of these paths. *)
Definition do_GET (g : globals) (r : request) : list event * globals * bool :=
  let '(head, ok) := _set_headers r in
  if ok then
    let failed text := [Print Stdout ("Failed to serve the file " +:+ text)] in
    let body :=
      match profile_data g with
      | Some data =>
          match request_body_error r with
          | None => [WriteBody data]
          | Some text => failed text
          end
      | None => failed "a bytes-like object is required, not 'NoneType'"
      end in
    (head ++ body,
     {| waiting_for_request := false; profile_data := profile_data g |}, true)
  else (head, g, false).

(** [send_error(status)] of the base class: status line and headers, then
    the page that explains the error unless the method is HEAD. *)
Definition send_error (status : Z) (head_method : bool) (r : request)
  : list event * bool :=
  let '(head, ok) := write_head r (SendError status) in
  if ok then
    if head_method then (head, true)
    else
      match request_body_error r with
      | None => (head ++ [WriteErrorPage status], true)
      | Some _ => (head, false)
      end
  else (head, false).

(** [server.handle_request()] for one request: the handler base class
    reads it, answers the ones it rejects, calls [do_<command>] when the
    class defines it and answers 501 otherwise; an exception that escapes
    is reported by the server, which goes on. *)
Definition handle_request (g : globals) (r : request) : list event * globals :=
  let '(trace, g', ok) :=
    match request_reading r with
    | NoRequestLine => ([], g, true)
    | ReadFails => ([], g, false)
    | Refused status head_method =>
        let '(trace, ok) := send_error status head_method r in (trace, g, ok)
    | Parsed command =>
        if decide (command = "GET") then do_GET g r
        else if decide (command = "HEAD") then do_HEAD g r
        else let '(trace, ok) := send_error 501 false r in (trace, g, ok)
    end in
  (if ok then trace else trace ++ [Traceback], g').

(** How a run of the serving loop ends. *)
Inductive loop_end :=
  | Stopped   (* the flag was found false *)
  | Blocked.  (* [handle_request] waits for a request that never comes *)

(** What a run of the serving loop did. *)
Record served := mkServed {
  served_trace : list event;         (* what was sent and printed *)
  served_handled : list request;     (* the requests that were handled *)
  served_unanswered : list request;  (* the requests that found no server *)
  served_globals : globals;
  served_end : loop_end
}.

(** [while waiting_for_request: server.handle_request()] against the
    requests that will arrive, in order. *)
Fixpoint serve (g : globals) (incoming : list request) : served :=
  if waiting_for_request g then
    match incoming with
    | [] => mkServed [] [] [] g Blocked
    | r :: incoming' =>
        let '(trace, g') := handle_request g r in
        let s := serve g' incoming' in
        mkServed (trace ++ served_trace s) (r :: served_handled s)
          (served_unanswered s) (served_globals s) (served_end s)
    end
  else mkServed [] [] incoming g Stopped.

Module Urllib.

Definition hex_digit (n : N) : ascii :=
  default "0"%char (String.get (N.to_nat n) "0123456789ABCDEF").

(** [%XX] for one byte. *)
Definition percent (byte : N) : string :=
  String "%" (String (hex_digit (byte / 16)) (String (hex_digit (byte mod 16)) "")).

(** The UTF-8 bytes of a code point below 256. *)
Definition utf8 (a : ascii) : list N :=
  let n := N_of_ascii a in
  (if n <? 128 then [n] else [192 + n / 64; 128 + n mod 64])%N.

(** The characters [quote] never escapes. *)
Definition always_safe (a : ascii) : bool :=
  Shlex.isalnum a || Py.mem a "_.-~".

(** [urllib.parse.quote(s, safe="")] *)
Fixpoint quote (s : string) : string :=
  match s with
  | "" => ""
  | String a s' =>
      (if always_safe a then String a ""
       else String.concat "" (percent <$> utf8 a)) +:+ quote s'
  end.

End Urllib.

(** The message of [main] for a command line without the separator. *)
Definition no_separator_msg : string :=
  "No -- was found at the start of the command".

(** How a run of the program ends. *)
Inductive ending :=
  | Exited (status : Z)   (* [sys.exit(status)] *)
  | Uncaught (e : exn)    (* an exception reaches the top level *)
  | Returned              (* [main] returns *)
  | Waiting.              (* the server waits for a request for ever *)

(** What a run reads from its environment. *)
Record world := mkWorld {
  (** [process.stdout] of the spawned command: its lines, each with the
      value [datetime.now()] has while the line is handled *)
  world_stdout : option (list (string * datetime));
  (** [time.time()] when the empty profile is created *)
  world_time : Qc;
  (** the port [get_free_port()] returns *)
  world_port : Z;
  (** the requests that reach the server, in order *)
  world_requests : list request
}.

Section Program.

(** [json.dumps(profile).encode("utf-8")] *)
Variable json_dumps : Profile → string.

(** [open_profile(profile, command)] *)
Definition open_profile (profile : Profile) (command : list string)
    (w : world) : list event * ending :=
  let g := {| waiting_for_request := waiting_for_request initial_globals;
              profile_data := Some (json_dumps profile) |} in
  let port := world_port w in
  let json_url := "http://localhost:" +:+ pretty port in
  let url :=
    "https://profiler.firefox.com/from-url/" +:+ Urllib.quote json_url
    +:+ "?name=" +:+ Urllib.quote (String.concat " " command) in
  let s := serve g (world_requests w) in
  (BrowserOpen url :: served_trace s,
   match served_end s with Stopped => Returned | Blocked => Waiting end).

(** [main()] from [command = args.command] on. *)
Definition main (command : list string) (w : world) : list event * ending :=
  match command with
  | [] => ([PrintHelp Stdout], Exited 1)
  | first :: rest =>
      if negb (bool_decide (first = "--")) then
        ([Print Stderr no_separator_msg; PrintHelp Stdout], Exited 1)
      else
        match run_command rest (world_stdout w) with
        | (trace, Raise e) => (trace, Uncaught e)
        | (trace, Return buffer) =>
            let profile := build_profile (world_time w) buffer in
            let '(trace', e) := open_profile profile command w in
            (trace ++ trace', e)
        end
  end.

End Program.

(** * Vocabulary of the statements *)

(** The array and the dictionary describe the same finite bijection. *)
Definition consistent (self : UniqueStringArray) : Prop :=
  NoDup (_array self) ∧
  ∀ s i, _string_to_index self !! s = Some i ↔
         ∃ n : nat, i = Z.of_nat n ∧ _array self !! n = Some s.

(** The payload [build_profile] stores for one event. *)
Definition payload (ev : datetime * string) : MarkerData :=
  {| data_type := "sh-profile"; data_name := "sh-profile";
     data_line := ev.2;
     data_hour := strftime ev.1 "%H:%M:%S";
     data_date := strftime ev.1 "%Y-%m-%d" |}.

(** The order in which the recorder produces events: an event is never
    stamped earlier than the one before it. *)
Definition not_later (e1 e2 : datetime * string) : Prop :=
  (timestamp e1.1 ≤ timestamp e2.1)%Qc.

(** A [datetime] [n] seconds after the epoch; its formatting is left
    symbolic. *)
Definition at_second (n : Z) : datetime :=
  {| timestamp := Qc_of_Z n; strftime := λ fmt, fmt |}.

(** The line terminator. *)
Definition LF : ascii := ascii_of_N 10.

(** The output of a command that emits ["a\n"], [""] and ["b\n"], read at
    the times [dt0], [dt1] and [dt2]. *)
Definition scenario (dt0 dt1 dt2 : datetime) : list (string * datetime) :=
  [(String "a" (String LF ""), dt0); ("", dt1); (String "b" (String LF ""), dt2)].

(** A text in which an escape sequence encloses another one: removing the
    inner sequence leaves the outer one behind. *)
Definition nested_sequence : string :=
  String ESC ("[" +:+ String ESC "[0m" +:+ "0m").

(** A request with a full request line whose answer can be written. *)
Definition plain_request (command : string) : request :=
  {| request_reading := Parsed command; request_version09 := false;
     request_head_fails := false; request_body_error := None |}.

Definition HEAD_request : request := plain_request "HEAD".
Definition GET_request : request := plain_request "GET".

(** A GET request whose client goes away before the body is written. *)
Definition broken_pipe_GET : request :=
  {| request_reading := Parsed "GET"; request_version09 := false;
     request_head_fails := false;
     request_body_error := Some "[Errno 32] Broken pipe" |}.

(** The requests after which [waiting_for_request] is false: a GET that
    reaches [do_GET] and gets past [_set_headers()], that is, its status
    line and headers are written or, for HTTP/0.9, not written at all. *)
Definition clears_flag (r : request) : bool :=
  match request_reading r with
  | Parsed command =>
      bool_decide (command = "GET")
      && (request_version09 r || negb (request_head_fails r))
  | _ => false
  end.

(** A run in which the command prints nothing and no request arrives. *)
Definition quiet_world : world :=
  {| world_stdout := Some []; world_time := 0%Qc; world_port := 8000;
     world_requests := [] |}.

(** The repetition loop inside [Re.bt], by name: up to [n] more matches
    of [r], then [k]. *)
Definition bt_rep (r : Re.regex) (k : string → option string)
  : nat → string → option string :=
  fix rep (n : nat) (s : string) : option string :=
    match n with
    | O => k s
    | S n' =>
        match Re.bt r s (rep n') with
        | Some x => Some x
        | None => k s
        end
    end.

(** A non-empty string of decimal digits. *)
Definition number (d : string) : bool :=
  Py.nonempty d && Py.all Re.is_digit d.

(** [; p1 ; p2 ... m rest]: the parameters after the first, the final
    letter and what follows. *)
Fixpoint sgr_tail (params : list string) (rest : string) : string :=
  match params with
  | [] => String "m" rest
  | p :: params' => String ";" (p +:+ sgr_tail params' rest)
  end.

(** The escape sequence [ESC [ p1 ; ... ; pn m]. *)
Definition sgr (params : list string) : string :=
  String ESC (String "[" (String.concat ";" params +:+ "m")).

Definition starts_with_digit (s : string) : bool :=
  match s with
  | String a _ => Re.is_digit a
  | "" => false
  end.

(** A line that [run_command] does not store: white space only. *)
Definition blank (line : string) : bool := Py.all Py.isspace line.

(** The dictionary [build_profile] computes from the category list. *)
Definition category_dict : gmap string Z :=
  Py.dict_of ((λ p, (category_name p.2, p.1)) <$> Py.enumerate get_categories).

(** The interner once ["sh-profile"] has been interned. *)
Definition named_interner : UniqueStringArray :=
  (index_for_string (UniqueStringArray_init None) "sh-profile").2.

(** The start time of an event relative to the first event of [buffer]. *)
Definition relative_start (buffer : list (datetime * string))
    (ev : datetime * string) : Qc :=
  (get_timestamp_ms ev.1
   - default 0%Qc (get_timestamp_ms <$> head (buffer.*1)))%Qc.

(** The copies of the serialized profile written during a run, in order
    (the pages of error answers are not counted). *)
Definition bodies (trace : list event) : list string :=
  omap (λ e, match e with WriteBody data => Some data | _ => None end) trace.

(** The events that open a response: a status line with headers, or an
    error status. *)
Definition is_head (e : event) : bool :=
  match e with
  | SendHeaders _ _ | SendError _ => true
  | _ => false
  end.

(** The way the server opens its answer to a request, if it does: no
    status line is written for HTTP/0.9, for a request that is not read,
    or when the write fails. *)
Definition response_head (r : request) : option event :=
  if request_version09 r || request_head_fails r then None
  else
    match request_reading r with
    | Parsed command =>
        Some (if decide (command = "GET" ∨ command = "HEAD")
              then SendHeaders 200 [("Content-type", "application/json");
                                    ("Access-Control-Allow-Origin", "*")]
              else SendError 501)
    | Refused status _ => Some (SendError status)
    | _ => None
    end.

(** The URL [open_profile] hands to the browser. *)
Definition profiler_url (port : Z) (command : list string) : string :=
  "https://profiler.firefox.com/from-url/"
  +:+ Urllib.quote ("http://localhost:" +:+ pretty port)
  +:+ "?name=" +:+ Urllib.quote (String.concat " " command).

(** What [run_command] stores for the output [lines]. *)
Definition recorded (lines : list (string * datetime))
  : list (datetime * string) :=
  (λ p, (p.2, strip_ansi p.1)) <$> filter (λ p, blank p.1 = false) lines.

(** The state of the module globals when the serving loop starts. *)
Definition serving (data : string) : globals :=
  {| waiting_for_request := true; profile_data := Some data |}.

(** The characters of a percent-encoded text: unreserved ones and [%]. *)
Definition url_char (a : ascii) : bool :=
  Urllib.always_safe a || Ascii.eqb a "%".

(** A word the shell reads as it stands: not empty, safe characters only. *)
Definition plain_word (s : string) : bool :=
  Py.nonempty s && Py.all Shlex.safe s.

(** * Properties *)

(** ** The string interner *)

Section Interner.

Implicit Types (self : UniqueStringArray) (s : string) (ss : list string).

Lemma consistent_fresh : consistent (UniqueStringArray_init None).
Proof.
  split; [constructor|]. intros s i; cbn. rewrite lookup_empty.
  split; [done|]. by intros (n & _ & ?).
Qed.

Lemma index_for_string_known self s i :
  _string_to_index self !! s = Some i → index_for_string self s = (i, self).
Proof. intros H. unfold index_for_string. by rewrite H. Qed.

Lemma consistent_lookup_None self s :
  consistent self → _string_to_index self !! s = None ↔ s ∉ _array self.
Proof.
  intros [_ Hc]. split.
  - intros Hn [n Hin]%list_elem_of_lookup.
    assert (_string_to_index self !! s = Some (Z.of_nat n)) as E
      by (apply Hc; eauto).
    congruence.
  - intros Hnin. destruct (_string_to_index self !! s) as [i|] eqn:E; [|done].
    apply Hc in E as (n & _ & Hl). destruct Hnin.
    apply list_elem_of_lookup; eauto.
Qed.

Lemma index_for_string_new self s :
  consistent self → s ∉ _array self →
  let r := index_for_string self s in
  r.1 = Z.of_nat (length (_array self)) ∧
  _array r.2 = _array self ++ [s] ∧ consistent r.2.
Proof.
  intros Hc Hnin. pose proof Hc as [Hnd Hm].
  apply (consistent_lookup_None _ _ Hc) in Hnin as Hnone.
  unfold index_for_string. rewrite Hnone. cbn.
  split_and!; [done..|]. split; cbn.
  - apply NoDup_app. split_and!; [done| |apply NoDup_singleton].
    intros x Hx ->%list_elem_of_singleton. done.
  - intros t i. rewrite lookup_insert. case_decide as Hst.
    + subst t. split.
      * intros [= <-]. exists (length (_array self)). split; [done|].
        by rewrite lookup_app_r, Nat.sub_diag by lia.
      * intros (n & -> & Hl). f_equal. f_equal.
        destruct (decide (n < length (_array self))%nat) as [Hlt|Hge].
        -- rewrite lookup_app_l in Hl by done.
           destruct Hnin. apply list_elem_of_lookup; eauto.
        -- apply lookup_lt_Some in Hl. rewrite length_app in Hl. cbn in Hl. lia.
    + rewrite Hm. split; intros (n & -> & Hl); exists n; (split; [done|]).
      * apply lookup_app_l_Some; done.
      * apply lookup_app_Some in Hl as [Hl|[_ Hl]]; [done|].
        apply list_lookup_singleton_Some in Hl as [_ ?]. congruence.
Qed.

Lemma index_for_string_old self s :
  consistent self → s ∈ _array self →
  (index_for_string self s).2 = self.
Proof.
  intros Hc Hin. unfold index_for_string.
  destruct (_string_to_index self !! s) eqn:E; [done|].
  by apply (consistent_lookup_None _ _ Hc) in E.
Qed.


Lemma intern_all_elements ss : ∀ self,
  consistent self →
  let r := intern_all self ss in
  consistent r.2 ∧
  (list_to_set (_array r.2) : gset string)
  = list_to_set (_array self) ∪ list_to_set ss.
Proof.
  induction ss as [|s ss IH]; intros self Hc; cbn.
  { split; [done|]. by rewrite (right_id_L ∅ (∪)). }
  destruct (decide (s ∈ _array self)) as [Hin|Hnin].
  - pose proof (index_for_string_old self s Hc Hin) as Hold.
    destruct (index_for_string self s) as [i self1]; cbn in *. subst self1.
    destruct (IH self Hc) as [Hcr Hset].
    destruct (intern_all self ss) as [rest self2]; cbn in *.
    split; [done|]. rewrite Hset. clear IH Hset Hcr Hc.
    apply (elem_of_list_to_set (C:=gset string)) in Hin.
    apply set_eq. intros x. rewrite !elem_of_union, elem_of_singleton.
    split; [tauto|]. intros [?|[->|?]]; tauto.
  - destruct (index_for_string_new self s Hc Hnin) as (_ & Ha & Hc').
    destruct (index_for_string self s) as [i self1]; cbn in *.
    destruct (IH self1 Hc') as [Hcr Hset].
    destruct (intern_all self1 ss) as [rest self2]; cbn in *.
    split; [done|]. rewrite Hset, Ha, list_to_set_app_L. cbn.
    by rewrite (right_id_L ∅ (∪)), (assoc_L (∪)).
Qed.

End Interner.



Section Lookup.

Implicit Types (self : UniqueStringArray) (index : Z).

Lemma has_index_false self index :
  has_index self index = false ↔ Z.of_nat (length (_array self)) ≤ index.
Proof.
  unfold has_index. rewrite bool_decide_eq_false. lia.
Qed.

Lemma has_index_true self index :
  has_index self index = true ↔ index < Z.of_nat (length (_array self)).
Proof. unfold has_index. by rewrite bool_decide_eq_true. Qed.

Lemma truthy_Some els : Py.truthy (Some els) = true ↔ els ≠ "".
Proof. destruct els; cbn; split; congruence. Qed.

End Lookup.

(** C8 does not hold as stated: with the empty string as fallback
    [get_string] still raises. *)
Lemma get_string_empty_fallback_raises :
  ¬ (∀ (self : UniqueStringArray) (index : Z) (els : string),
       Z.of_nat (length (_array self)) ≤ index →
       (get_string self index (Some els)).2 = Return els).
Proof.
  intros H.
  specialize (H (UniqueStringArray_init (Some ["ls"])) 1 "").
  cbn in H. discriminate H. lia.
Qed.

(** C8, amended. For an index at or beyond the size of the table,
    [get_string] without a fallback raises [ValueError]; with a non-empty
    fallback it prints the message and returns the fallback. *)
Theorem get_string_out_of_range (self : UniqueStringArray) (index : Z) :
  Z.of_nat (length (_array self)) ≤ index →
  get_string self index None = ([], Raise (ValueError (not_in_msg index))) ∧
  (∀ els, els ≠ "" →
     get_string self index (Some els)
     = ([Print Stdout (not_in_msg index)], Return els)).
Proof.
  intros Hge%has_index_false. unfold get_string. rewrite Hge. cbn.
  split; [done|].
  intros els Hne%truthy_Some. cbn in Hne. by rewrite Hne.
Qed.

Lemma get_string_out_of_range_witness :
  let self := UniqueStringArray_init (Some ["ls"; "cd"]) in
  Z.of_nat (length (_array self)) ≤ 2 ∧
  get_string self 2 None
  = ([], Raise (ValueError "index 2 not in UniqueStringArray")) ∧
  get_string self 2 (Some "?")
  = ([Print Stdout "index 2 not in UniqueStringArray"], Return "?").
Proof.
  cbn zeta.
  assert (Z.of_nat (length (_array (UniqueStringArray_init (Some ["ls"; "cd"]))))
          ≤ 2) as Hge by (cbn; lia).
  destruct (get_string_out_of_range _ 2 Hge) as (Hnone & Hsome).
  split_and!; [exact Hge|exact Hnone|].
  apply (Hsome "?"). discriminate.
Defined.

(** C10. In a table of [n > 0] strings every index with [-n <= index < 0]
    passes [has_index], and [get_string] returns the string stored at
    position [n + index], with or without a fallback; the bounds check
    fails exactly for the indices [>= n]. *)
Theorem negative_index_wraps (self : UniqueStringArray) (index : Z)
    (els : option string) :
  let n := Z.of_nat (length (_array self)) in
  0 < n → - n ≤ index < 0 →
  has_index self index = true ∧
  (∃ s, _array self !! Z.to_nat (n + index) = Some s ∧
        get_string self index els = ([], Return s)) ∧
  (∀ i, has_index self i = false ↔ n ≤ i).
Proof.
  intros n Hn Hi. split_and!.
  - apply has_index_true. lia.
  - destruct (lookup_lt_is_Some_2 (_array self) (Z.to_nat (n + index)))
      as [s Hs]; [subst n; lia|].
    exists s. split; [done|].
    unfold get_string. rewrite (proj2 (has_index_true self index)) by lia.
    unfold Py.getitem. cbv zeta. fold n.
    rewrite (decide_True (P := index < 0)) by lia.
    rewrite (decide_True (P := 0 ≤ n + index < n)) by lia.
    by rewrite Hs.
  - intros i. apply has_index_false.
Qed.

Lemma negative_index_wraps_witness :
  let self := UniqueStringArray_init (Some ["ls"; "cd"; "pwd"]) in
  0 < 3 ∧ - 3 ≤ - 1 < 0 ∧
  has_index self (- 1) = true ∧
  get_string self (- 1) None = ([], Return "pwd") ∧
  get_string self (- 3) (Some "?") = ([], Return "ls").
Proof.
  cbn zeta.
  pose proof (negative_index_wraps
                (UniqueStringArray_init (Some ["ls"; "cd"; "pwd"])) (- 1) None)
    as H1.
  pose proof (negative_index_wraps
                (UniqueStringArray_init (Some ["ls"; "cd"; "pwd"])) (- 3)
                (Some "?")) as H3.
  cbv zeta in H1, H3.
  destruct H1 as (Hh & (s1 & Hs1 & Hg1) & _); [cbn; lia..|].
  destruct H3 as (_ & (s3 & Hs3 & Hg3) & _); [cbn; lia..|].
  cbn in Hs1, Hs3. injection Hs1 as <-. injection Hs3 as <-.
  split_and!; [lia..|exact Hh|exact Hg1|exact Hg3].
Defined.

(** ** The profile builder *)

Section Builder.

Implicit Types (m : MarkerTable) (u : UniqueStringArray).
Implicit Types (buffer : list (datetime * string)) (now pst : Qc).

(** The columns after the loop, in terms of the columns before it. *)
Lemma foldl_add_marker pst d buffer : ∀ m u,
  let r := (foldl (add_marker pst d) (m, u) buffer).1 in
  markers_startTime r
  = markers_startTime m
    ++ ((λ ev, (get_timestamp_ms ev.1 - pst)%Qc) <$> buffer) ∧
  markers_data r = markers_data m ++ (payload <$> buffer) ∧
  length (markers_endTime r)
  = (length (markers_endTime m) + length buffer)%nat ∧
  length (markers_phase r) = (length (markers_phase m) + length buffer)%nat ∧
  length (markers_category r)
  = (length (markers_category m) + length buffer)%nat ∧
  length (markers_name r) = (length (markers_name m) + length buffer)%nat ∧
  markers_length r = markers_length m + Z.of_nat (length buffer).
Proof.
  induction buffer as [|[dt line] buffer IH]; intros m u; cbn.
  { rewrite !app_nil_r, !Nat.add_0_r, Z.add_0_r. done. }
  destruct (index_for_string u "sh-profile") as [name_index u'].
  match goal with |- context [foldl _ (?m', _) _] =>
    destruct (IH m' u') as (H1 & H2 & H3 & H4 & H5 & H6 & H7) end.
  cbn in *. rewrite H1, H2, H3, H4, H5, H6, H7.
  rewrite <- !app_assoc, !length_app. cbn.
  split_and!; try done; lia.
Qed.

Lemma profile_start_time_of buffer :
  match buffer with
  | (dt, _) :: _ => get_timestamp_ms dt
  | [] => 0%Qc
  end = default 0%Qc (get_timestamp_ms <$> head (buffer.*1)).
Proof. by destruct buffer as [|[??]?]. Qed.

(** [build_profile] attaches exactly one thread, whose marker table is
    the result of the loop started on the empty table. *)
Lemma built_markers_build_profile now buffer :
  ∃ d,
    built_markers (build_profile now buffer)
    = (foldl (add_marker
                (default 0%Qc (get_timestamp_ms <$> head (buffer.*1))) d)
         (thread_markers get_empty_thread, UniqueStringArray_init None)
         buffer).1.
Proof.
  unfold build_profile, built_markers. rewrite profile_start_time_of.
  cbv zeta. set (d := Py.dict_of _). exists d.
  by destruct (foldl (add_marker _ d) _ buffer) as [markers u].
Qed.

Lemma build_profile_threads now buffer :
  ∃ thread,
    profile_threads (build_profile now buffer) = [thread] ∧
    thread_markers thread = built_markers (build_profile now buffer).
Proof.
  unfold built_markers, build_profile. cbv zeta.
  destruct (foldl _ _ buffer) as [markers u]. cbn. eauto.
Qed.

Lemma built_columns now buffer :
  let m := built_markers (build_profile now buffer) in
  let pst := default 0%Qc (get_timestamp_ms <$> head (buffer.*1)) in
  markers_startTime m = (λ ev, (get_timestamp_ms ev.1 - pst)%Qc) <$> buffer ∧
  markers_data m = payload <$> buffer ∧
  length (markers_endTime m) = length buffer ∧
  length (markers_phase m) = length buffer ∧
  length (markers_category m) = length buffer ∧
  length (markers_name m) = length buffer ∧
  markers_length m = Z.of_nat (length buffer).
Proof.
  destruct (built_markers_build_profile now buffer) as [d ->].
  pose proof (foldl_add_marker
                (default 0%Qc (get_timestamp_ms <$> head (buffer.*1))) d
                buffer (thread_markers get_empty_thread)
                (UniqueStringArray_init None)) as H.
  cbn in H. rewrite !Z.add_0_l in H. exact H.
Qed.

Lemma Qcminus_diag (x : Qc) : (x - x)%Qc = 0%Qc.
Proof. ring. Qed.

Lemma Qcminus_le_mono_r (x y z : Qc) : (x ≤ y)%Qc → (x - z ≤ y - z)%Qc.
Proof. intros H. unfold Qcminus. by apply Qcplus_le_mono_r. Qed.

Lemma get_timestamp_ms_mono (dt1 dt2 : datetime) :
  (timestamp dt1 ≤ timestamp dt2)%Qc →
  (get_timestamp_ms dt1 ≤ get_timestamp_ms dt2)%Qc.
Proof.
  intros H. unfold get_timestamp_ms. by apply Qcmult_le_compat_r.
Qed.

End Builder.

(** C1. Whatever the sequence of events, [build_profile] returns a profile
    with one thread; the six columns of its marker table have the same
    number of entries, and the table's [length] entry is that number. *)
Theorem marker_columns_aligned (now : Qc) (buffer : list (datetime * string)) :
  ∃ thread,
    profile_threads (build_profile now buffer) = [thread] ∧
    let m := thread_markers thread in
    length (markers_startTime m) = length (markers_endTime m) ∧
    length (markers_endTime m) = length (markers_phase m) ∧
    length (markers_phase m) = length (markers_category m) ∧
    length (markers_category m) = length (markers_name m) ∧
    length (markers_name m) = length (markers_data m) ∧
    markers_length m = Z.of_nat (length (markers_startTime m)).
Proof.
  destruct (build_profile_threads now buffer) as (thread & Ht & Hm).
  exists thread. split; [done|]. cbv zeta. rewrite Hm.
  destruct (built_columns now buffer) as (H1 & H2 & H3 & H4 & H5 & H6 & H7).
  cbv zeta in *. rewrite H1, H2, H3, H4, H5, H6, H7, !length_fmap. done.
Qed.

(** C3. For a non-empty sequence of events [meta.startTime] is the first
    event's time stamp in milliseconds and the first marker starts at 0;
    for the empty sequence [meta.startTime] is still the value the empty
    profile was created with. *)
Theorem meta_startTime_is_first_event :
  (∀ now dt line rest,
     let p := build_profile now ((dt, line) :: rest) in
     meta_startTime (profile_meta p) = get_timestamp_ms dt ∧
     markers_startTime (built_markers p) !! 0%nat = Some 0%Qc) ∧
  (∀ now,
     meta_startTime (profile_meta (build_profile now []))
     = meta_startTime (profile_meta (get_empty_profile now))).
Proof.
  split.
  - intros now dt line rest p. split.
    + subst p. unfold build_profile. by destruct (foldl _ _ _).
    + destruct (built_columns now ((dt, line) :: rest)) as (H1 & _).
      subst p. rewrite H1. cbn. by rewrite Qcminus_diag.
  - intros now. reflexivity.
Qed.

Global Instance not_later_trans : Transitive not_later.
Proof. intros e1 e2 e3. unfold not_later. apply Qcle_trans. Qed.

(** C9. When the time stamps of the events never decrease, the [startTime]
    column lists, in the order of the events, each event's time relative to
    the first one, and every entry is at most any later entry (equal
    entries are possible). *)
Theorem relative_start_times_sorted (now : Qc)
    (buffer : list (datetime * string)) :
  Sorted not_later buffer →
  let m := built_markers (build_profile now buffer) in
  let t0 := default 0%Qc (get_timestamp_ms <$> head (buffer.*1)) in
  markers_startTime m = (λ ev, (get_timestamp_ms ev.1 - t0)%Qc) <$> buffer ∧
  StronglySorted Qcle (markers_startTime m).
Proof.
  intros Hs m t0. destruct (built_columns now buffer) as [Hst _].
  fold m t0 in Hst. split; [done|]. rewrite Hst.
  apply (Sorted_StronglySorted not_later) in Hs.
  revert Hs. apply StronglySorted_fmap.
  intros e1 e2 H. by apply Qcminus_le_mono_r, get_timestamp_ms_mono.
Qed.

Lemma relative_start_times_sorted_witness :
  let buffer := [(at_second 7, "make"); (at_second 7, "cc main.c");
                 (at_second 9, "done")] in
  Sorted not_later buffer ∧
  StronglySorted Qcle
    (markers_startTime (built_markers (build_profile 0%Qc buffer))).
Proof.
  cbv zeta.
  assert (Sorted not_later
            [(at_second 7, "make"); (at_second 7, "cc main.c");
             (at_second 9, "done")]) as Hs.
  { repeat constructor; unfold not_later; cbn; by vm_compute. }
  split; [exact Hs|].
  exact (proj2 (relative_start_times_sorted 0%Qc _ Hs)).
Defined.

(** C4 does not hold as stated: the stored lines keep their line
    terminator. *)
Lemma scenario_lines_keep_terminator :
  let buffer := (read_lines (scenario (at_second 1) (at_second 2) (at_second 3))).2 in
  let m := built_markers (build_profile 0%Qc buffer) in
  (timestamp (at_second 1) < timestamp (at_second 2) < timestamp (at_second 3))%Qc ∧
  data_line <$> markers_data m ≠ ["a"; "b"].
Proof.
  cbv zeta. split; [split; by vm_compute|].
  destruct (built_columns 0%Qc
              (read_lines (scenario (at_second 1) (at_second 2) (at_second 3))).2)
    as (_ & -> & _).
  cbn. discriminate.
Qed.

(** C4, amended. Whatever the three time stamps (in particular when they
    increase), the scenario yields a marker table of exactly two markers
    whose [data.line] values are ["a\n"] then ["b\n"], and the first marker
    starts at 0; the three lines are echoed without their last character. *)
Theorem scenario_two_markers (now : Qc) (dt0 dt1 dt2 : datetime) :
  let r := read_lines (scenario dt0 dt1 dt2) in
  let m := built_markers (build_profile now r.2) in
  r.1 = [Print Stdout "a"; Print Stdout ""; Print Stdout "b"] ∧
  markers_length m = 2 ∧
  length (markers_startTime m) = 2%nat ∧
  data_line <$> markers_data m
  = [String "a" (String LF ""); String "b" (String LF "")] ∧
  markers_startTime m !! 0%nat = Some 0%Qc.
Proof.
  intros r m.
  destruct (built_columns now r.2) as (Hst & Hd & _ & _ & _ & _ & Hl).
  fold m in Hst, Hd, Hl. rewrite Hst, Hd, Hl.
  assert (r.2 = [(dt0, String "a" (String LF "")); (dt2, String "b" (String LF ""))])
    as -> by reflexivity.
  split_and!; try reflexivity.
  cbn [fmap list_fmap head default option_fmap option_map fst lookup list_lookup].
  by rewrite Qcminus_diag.
Qed.

(** ** The ANSI filter *)

Section Strip.

(** The pattern can only match where the text has an ESC. *)
Lemma match_len_needs_ESC (a : ascii) (s : string) :
  Ascii.eqb a ESC = false → Re.match_len pattern (String a s) = None.
Proof.
  intros H. unfold Re.match_len, pattern. cbn [Re.bt]. by rewrite H.
Qed.

Lemma sub_empty_without_ESC (s : string) :
  Py.mem ESC s = false → Re.sub_empty pattern 0 s = s.
Proof.
  induction s as [|a s IH]; cbn [Py.mem Re.sub_empty]; [done|].
  intros [Ha Hs]%orb_false_iff. rewrite Ascii.eqb_sym in Ha.
  by rewrite (match_len_needs_ESC _ _ Ha), IH.
Qed.

End Strip.

(** C6 does not hold as stated: one pass can bring the two halves of a
    sequence together, and a second pass removes it. *)
Lemma strip_ansi_not_idempotent :
  ¬ (∀ s, strip_ansi (strip_ansi s) = strip_ansi s).
Proof.
  intros H. specialize (H nested_sequence). vm_compute in H. discriminate H.
Qed.

(** C6, amended. [strip_ansi] returns unchanged every string that holds no
    ESC character; hence stripping twice equals stripping once whenever
    the stripped string holds no ESC; and the coloured ["HELLO"] of the
    specification is stripped to ["HELLO"]. *)
Theorem strip_ansi_fixes_clean_text :
  (∀ s, Py.mem ESC s = false → strip_ansi s = s) ∧
  (∀ s, Py.mem ESC (strip_ansi s) = false →
        strip_ansi (strip_ansi s) = strip_ansi s) ∧
  strip_ansi (String ESC "[31mHELLO" +:+ String ESC "[0m") = "HELLO".
Proof.
  split_and!.
  - apply sub_empty_without_ESC.
  - intros s H. by apply sub_empty_without_ESC.
  - reflexivity.
Qed.

Lemma strip_ansi_fixes_clean_text_witness :
  Py.mem ESC "make: done" = false ∧
  strip_ansi "make: done" = "make: done" ∧
  Py.mem ESC (strip_ansi (String ESC "[1;32mok" +:+ String ESC "[0m")) = false ∧
  strip_ansi (strip_ansi (String ESC "[1;32mok" +:+ String ESC "[0m"))
  = strip_ansi (String ESC "[1;32mok" +:+ String ESC "[0m").
Proof.
  destruct strip_ansi_fixes_clean_text as (H1 & H2 & _).
  split_and!.
  - reflexivity.
  - apply H1. reflexivity.
  - reflexivity.
  - apply H2. reflexivity.
Defined.

(** ** The publication server *)

Section Server.

Implicit Types (g : globals) (r : request) (rs : list request).

Lemma handle_request_keeps g r :
  clears_flag r = false → (handle_request g r).2 = g.
Proof.
  destruct r as [[| |status hm|command] v h b].
  1-2: done.
  { intros _. unfold handle_request, send_error, write_head. cbn.
    by destruct v, h, hm, b. }
  unfold clears_flag, handle_request, do_GET, do_HEAD, send_error,
    _set_headers, write_head. cbn.
  destruct (decide (command = "GET")) as [->|Hc].
  - rewrite bool_decide_eq_true_2 by done. by destruct v, h.
  - intros _. case_decide; by destruct v, h, b.
Qed.

Lemma handle_request_clears g r :
  clears_flag r = true → waiting_for_request (handle_request g r).2 = false.
Proof.
  destruct r as [[| |status hm|command] v h b]; try done.
  unfold clears_flag, handle_request, do_GET, _set_headers, write_head. cbn.
  intros [Hc Hv]%andb_true_iff. apply bool_decide_eq_true in Hc as ->.
  rewrite decide_True by done. by destruct v, h.
Qed.

Lemma serve_stopped g rs :
  waiting_for_request g = false → serve g rs = mkServed [] [] rs g Stopped.
Proof. intros H. destruct rs; cbn; by rewrite H. Qed.

Lemma serve_cons g r rs :
  waiting_for_request g = true →
  let s := serve (handle_request g r).2 rs in
  serve g (r :: rs)
  = mkServed ((handle_request g r).1 ++ served_trace s)
      (r :: served_handled s) (served_unanswered s) (served_globals s)
      (served_end s).
Proof. intros H. cbn. rewrite H. by destruct (handle_request g r). Qed.

(** Requests that do not clear the flag are handled one after the other
    and leave the loop waiting. *)
Lemma serve_without_GET rs : ∀ g,
  waiting_for_request g = true →
  Forall (λ r, clears_flag r = false) rs →
  served_handled (serve g rs) = rs ∧ served_end (serve g rs) = Blocked.
Proof.
  induction rs as [|r rs IH]; intros g Hw Hrs.
  { cbn. by rewrite Hw. }
  apply Forall_cons in Hrs as [Hr Hrs].
  rewrite serve_cons by done. cbn.
  rewrite (handle_request_keeps _ _ Hr).
  destruct (IH g Hw Hrs) as [-> ->]. done.
Qed.

End Server.

(** C2 does not hold as stated: after a HEAD request the loop goes on and
    the server answers the next request too. *)
Lemma serve_answers_after_HEAD :
  ¬ (∀ (data : string) (r : request) (rs : list request),
       request_reading r = Parsed "GET" ∨ request_reading r = Parsed "HEAD" →
       let s := serve {| waiting_for_request := true;
                         profile_data := Some data |} (r :: rs) in
       served_handled s = [r] ∧ served_end s = Stopped).
Proof.
  intros H.
  destruct (H "{}" HEAD_request [GET_request]) as [Hh _]; [by right|].
  discriminate Hh.
Qed.

(** C2, amended. Whatever the profile data, once the first GET request
    that reaches [do_GET] and gets past [_set_headers()] has been handled
    (its body written or the write having failed) the loop stops: the
    requests before it, none of them such a GET, and that GET itself are
    the only ones handled, and no later request is. HEAD requests, other
    methods, requests the base class rejects and GET requests whose status
    line and headers cannot be written leave the loop waiting. *)
Theorem serve_stops_at_first_GET (g : globals) (before : list request)
    (get : request) (after : list request) :
  waiting_for_request g = true →
  Forall (λ r, clears_flag r = false) before →
  clears_flag get = true →
  let s := serve g (before ++ get :: after) in
  served_handled s = before ++ [get] ∧
  served_unanswered s = after ∧
  served_end s = Stopped ∧
  waiting_for_request (served_globals s) = false.
Proof.
  intros Hw Hb Hg. revert g Hw.
  induction before as [|r before IH]; intros g Hw.
  - cbn [app]. rewrite serve_cons by done. cbv zeta.
    rewrite serve_stopped by (by apply handle_request_clears). cbn.
    split_and!; try done. by apply handle_request_clears.
  - apply Forall_cons in Hb as [Hr Hb].
    cbn [app]. rewrite serve_cons by done. cbv zeta.
    rewrite (handle_request_keeps _ _ Hr). cbn.
    destruct (IH Hb g Hw) as (-> & -> & -> & ->). done.
Qed.

Lemma serve_stops_at_first_GET_witness :
  let g := {| waiting_for_request := true; profile_data := Some "{}" |} in
  let s := serve g ([HEAD_request] ++ broken_pipe_GET :: [GET_request]) in
  waiting_for_request g = true ∧
  Forall (λ r, clears_flag r = false) [HEAD_request] ∧
  clears_flag broken_pipe_GET = true ∧
  served_handled s = [HEAD_request; broken_pipe_GET] ∧
  served_unanswered s = [GET_request] ∧
  served_end s = Stopped.
Proof.
  cbv zeta.
  assert (Forall (λ r, clears_flag r = false) [HEAD_request]) as Hb
    by (repeat constructor).
  destruct (serve_stops_at_first_GET
              {| waiting_for_request := true; profile_data := Some "{}" |}
              [HEAD_request] broken_pipe_GET [GET_request] eq_refl Hb eq_refl)
    as (H1 & H2 & H3 & _).
  split_and!; [reflexivity|exact Hb|reflexivity|exact H1|exact H2|exact H3].
Defined.

(** ** The command line *)

(** C7 does not hold as stated: the help text goes to standard output;
    nothing at all is written to standard error when no argument is
    given. *)
Lemma help_goes_to_stdout :
  let r := main (λ _, "{}") [] quiet_world in
  r = ([PrintHelp Stdout], Exited 1) ∧ PrintHelp Stderr ∉ r.1.
Proof.
  cbv zeta. split; [reflexivity|].
  cbn. intros H. apply list_elem_of_singleton in H. discriminate H.
Qed.

(** C7, amended. When the argument list is empty or does not start with
    ["--"], the program prints the help text to standard output (preceded,
    when an argument is present, by a message on standard error), exits
    with status 1, and spawns no subprocess. *)
Theorem usage_error_exits_before_spawning (json_dumps : Profile → string)
    (command : list string) (w : world) :
  head command ≠ Some "--" →
  let r := main json_dumps command w in
  (r.1 = [PrintHelp Stdout] ∨
   r.1 = [Print Stderr no_separator_msg; PrintHelp Stdout]) ∧
  (command ≠ [] → Print Stderr no_separator_msg ∈ r.1) ∧
  PrintHelp Stdout ∈ r.1 ∧
  r.2 = Exited 1 ∧
  ∀ cmdline, Popen cmdline ∉ r.1.
Proof.
  intros Hh. destruct command as [|first rest]; cbn.
  - split_and!; [by left|done|set_solver|done|].
    intros c [=]%list_elem_of_singleton.
  - assert (first ≠ "--") as Hne by (intros ->; by destruct Hh).
    rewrite bool_decide_eq_false_2 by done. cbn.
    split_and!; [by right|intros _; left|right; left|done|].
    intros c [[=]|[=]%list_elem_of_singleton]%elem_of_cons.
Qed.

Lemma usage_error_exits_before_spawning_witness :
  let r := main (λ _, "{}") ["brew"; "upgrade"] quiet_world in
  head ["brew"; "upgrade"] ≠ Some "--" ∧
  PrintHelp Stdout ∈ r.1 ∧ r.2 = Exited 1 ∧ ∀ cmdline, Popen cmdline ∉ r.1.
Proof.
  cbv zeta.
  assert (head ["brew"; "upgrade"] ≠ Some "--") as Hh by discriminate.
  split; [exact Hh|].
  destruct (usage_error_exits_before_spawning (λ _, "{}") _ quiet_world Hh)
    as (_ & _ & H1 & H2 & H3).
  split_and!; [exact H1|exact H2|exact H3].
Defined.

(** * Further properties *)

(** ** The string interner: construction, round trips, bounds *)

Section InternerMore.

Implicit Types (self : UniqueStringArray) (s : string) (ss l : list string).

Lemma init_snoc l x :
  _string_to_index (UniqueStringArray_init (Some (l ++ [x])))
  = <[x := Z.of_nat (length l)]>
      (_string_to_index (UniqueStringArray_init (Some l))).
Proof.
  cbn. unfold Py.dict_of, Py.enumerate.
  rewrite imap_app, fmap_app, foldl_app. cbn. by rewrite Nat.add_0_r.
Qed.

(** The dictionary built by [__init__] sends a string to the position of
    its last occurrence in the array. *)
Lemma init_lookup l : ∀ s i,
  _string_to_index (UniqueStringArray_init (Some l)) !! s = Some i ↔
  ∃ n : nat, i = Z.of_nat n ∧ l !! n = Some s ∧
             ∀ m : nat, (n < m)%nat → l !! m ≠ Some s.
Proof.
  induction l as [|x l IH] using rev_ind; intros s i.
  { change (_string_to_index (UniqueStringArray_init (Some []))) with (∅ : gmap string Z).
    rewrite lookup_empty. split; [done|]. intros (n & _ & Hn & _).
    by rewrite lookup_nil in Hn. }
  rewrite init_snoc, lookup_insert. case_decide as Hx.
  - subst x. split.
    + intros [= <-]. exists (length l). split_and!; [done| |].
      * by rewrite lookup_app_r, Nat.sub_diag by lia.
      * intros m Hm Hl. apply lookup_lt_Some in Hl.
        rewrite length_app in Hl. cbn in Hl. lia.
    + intros (n & -> & Hn & Hlast). f_equal. f_equal.
      destruct (decide (n = length l)) as [->|Hne]; [done|].
      apply lookup_lt_Some in Hn as Hlt. rewrite length_app in Hlt. cbn in Hlt.
      destruct (Hlast (length l)); [lia|].
      by rewrite lookup_app_r, Nat.sub_diag by lia.
  - rewrite IH. split; intros (n & -> & Hn & Hlast); exists n.
    + split_and!; [done|by apply lookup_app_l_Some|].
      intros m Hm [Hl|[_ Hl]]%lookup_app_Some; [by eapply Hlast|].
      apply list_lookup_singleton_Some in Hl as [_ ?]. congruence.
    + apply lookup_app_Some in Hn as [Hn|[_ Hn]].
      * split_and!; [done..|]. intros m Hm Hl. eapply Hlast; [done|].
        by apply lookup_app_l_Some.
      * apply list_lookup_singleton_Some in Hn as [_ ?]. congruence.
Qed.

Lemma consistent_init l : NoDup l → consistent (UniqueStringArray_init (Some l)).
Proof.
  intros Hnd. split; [done|]. intros s i. rewrite init_lookup. cbn.
  split.
  - intros (n & -> & Hn & _). by exists n.
  - intros (n & -> & Hn). exists n. split_and!; [done..|]. intros m Hm Hl.
    pose proof (NoDup_lookup _ _ _ _ Hnd Hn Hl). lia.
Qed.

Lemma get_string_at self (n : nat) s els :
  _array self !! n = Some s →
  get_string self (Z.of_nat n) els = ([], Return s).
Proof.
  intros Hn. apply lookup_lt_Some in Hn as Hlt.
  unfold get_string. rewrite (proj2 (has_index_true self _)) by lia.
  unfold Py.getitem. cbv zeta.
  rewrite (decide_False (P := Z.of_nat n < 0)) by lia.
  rewrite decide_True by lia. by rewrite Nat2Z.id, Hn.
Qed.

(** In a consistent table [index_for_string] answers with a position that
    holds the string, and keeps the table consistent. *)
Lemma index_for_string_sound self s :
  consistent self →
  let r := index_for_string self s in
  consistent r.2 ∧ ∃ n : nat, r.1 = Z.of_nat n ∧ _array r.2 !! n = Some s.
Proof.
  intros Hc. destruct (decide (s ∈ _array self)) as [Hin|Hnin].
  - destruct (_string_to_index self !! s) as [i|] eqn:E.
    + rewrite (index_for_string_known _ _ _ E). cbn. split; [done|].
      by apply Hc in E.
    + by apply (consistent_lookup_None _ _ Hc) in E.
  - destruct (index_for_string_new self s Hc Hnin) as (Hi & Ha & Hc').
    cbv zeta. split; [done|]. exists (length (_array self)).
    split; [done|]. by rewrite Ha, lookup_app_r, Nat.sub_diag by lia.
Qed.

Lemma index_for_string_prefix self s :
  _array self `prefix_of` _array (index_for_string self s).2.
Proof.
  unfold index_for_string. destruct (_string_to_index self !! s); cbn.
  - done.
  - by apply prefix_app_r.
Qed.

Lemma intern_all_prefix ss : ∀ self,
  _array self `prefix_of` _array (intern_all self ss).2.
Proof.
  induction ss as [|s ss IH]; intros self; cbn; [done|].
  pose proof (index_for_string_prefix self s) as H1.
  destruct (index_for_string self s) as [i self1]. cbn in H1.
  pose proof (IH self1) as H2.
  destruct (intern_all self1 ss) as [rest self2]. cbn in *.
  by etrans.
Qed.

Lemma intern_all_lookup ss : ∀ self (k : nat) s,
  consistent self → ss !! k = Some s →
  let r := intern_all self ss in
  ∃ n : nat, r.1 !! k = Some (Z.of_nat n) ∧ _array r.2 !! n = Some s.
Proof.
  induction ss as [|x ss IH]; intros self k s Hc Hk; [done|]. cbn.
  destruct (index_for_string_sound self x Hc) as (Hc1 & n & Hi & Hn).
  pose proof (intern_all_prefix ss (index_for_string self x).2) as Hp.
  destruct (index_for_string self x) as [i self1]. cbn in Hc1, Hi, Hn, Hp.
  destruct k as [|k]; cbn in Hk.
  - injection Hk as ->.
    destruct (intern_all self1 ss) as [rest self2]. cbn in *.
    exists n. split; [by rewrite Hi|]. by eapply prefix_lookup_Some.
  - destruct (IH self1 k s Hc1 Hk) as (m & Hm & Hs).
    destruct (intern_all self1 ss) as [rest self2]. cbn in *. eauto.
Qed.

End InternerMore.

(** X1. Insert-then-look-up round trip. In a table created from a
    duplicate-free array and grown by any sequence of [index_for_string]
    calls, the index returned for a string is one at which [get_string]
    returns that string, with or without a fallback. *)
Theorem get_string_of_index_for_string (l ss : list string) (s : string)
    (els : option string) :
  NoDup l →
  let t := (intern_all (UniqueStringArray_init (Some l)) ss).2 in
  let r := index_for_string t s in
  get_string r.2 r.1 els = ([], Return s).
Proof.
  intros Hnd t r.
  destruct (intern_all_elements ss _ (consistent_init l Hnd)) as [Hc _].
  destruct (index_for_string_sound t s Hc) as (_ & n & Hi & Hn).
  fold r in Hi, Hn. rewrite Hi. by apply get_string_at.
Qed.

Lemma get_string_of_index_for_string_witness :
  NoDup ["ls"; "cd"] ∧
  let t := (intern_all (UniqueStringArray_init (Some ["ls"; "cd"])) ["pwd"; "ls"]).2 in
  get_string (index_for_string t "pwd").2 (index_for_string t "pwd").1 None
  = ([], Return "pwd").
Proof.
  assert (NoDup ["ls"; "cd"]) as Hnd
    by (apply (bool_decide_unpack _); vm_compute; exact I).
  split; [exact Hnd|].
  exact (get_string_of_index_for_string ["ls"; "cd"] ["pwd"; "ls"] "pwd" None Hnd).
Defined.

(** X2. A table created from an array with repeated strings: [has_string]
    holds exactly for the strings of the array; for such a string
    [index_for_string] returns the position of its last occurrence and
    changes nothing; for any other string it returns the length of the
    array. *)
Theorem init_indexes_last_occurrence (l : list string) (s : string) :
  let t := UniqueStringArray_init (Some l) in
  (has_string t s = true ↔ s ∈ l) ∧
  (s ∈ l →
   ∃ n : nat, index_for_string t s = (Z.of_nat n, t) ∧ l !! n = Some s ∧
              ∀ m : nat, (n < m)%nat → l !! m ≠ Some s) ∧
  (s ∉ l → (index_for_string t s).1 = Z.of_nat (length l)).
Proof.
  intros t.
  assert (s ∈ l → is_Some (_string_to_index t !! s)) as Hin.
  { intros Hs. induction l as [|x l IH] using rev_ind.
    - by apply elem_of_nil in Hs.
    - subst t. rewrite init_snoc, lookup_insert. case_decide; [by eexists|].
      apply IH. apply elem_of_app in Hs as [?|Hs]; [done|].
      apply list_elem_of_singleton in Hs. congruence. }
  assert (is_Some (_string_to_index t !! s) → s ∈ l) as Hout.
  { intros [i (n & _ & Hn & _)%init_lookup]. apply list_elem_of_lookup; eauto. }
  split_and!.
  - unfold has_string. rewrite bool_decide_eq_true. by split.
  - intros [i Hi]%Hin. pose proof Hi as (n & -> & Hn & Hlast)%init_lookup.
    exists n. by rewrite (index_for_string_known _ _ _ Hi).
  - intros Hnin. unfold index_for_string.
    destruct (_string_to_index t !! s) eqn:E; [|done].
    destruct Hnin. apply Hout. by eexists.
Qed.

Lemma init_indexes_last_occurrence_witness :
  let t := UniqueStringArray_init (Some ["ls"; "cd"; "ls"]) in
  ("ls" ∈ ["ls"; "cd"; "ls"]) ∧ ("pwd" ∉ ["ls"; "cd"; "ls"]) ∧
  (∃ n : nat, index_for_string t "ls" = (Z.of_nat n, t) ∧
              ["ls"; "cd"; "ls"] !! n = Some "ls" ∧
              ∀ m : nat, (n < m)%nat → ["ls"; "cd"; "ls"] !! m ≠ Some "ls") ∧
  (index_for_string t "pwd").1 = 3.
Proof.
  cbv zeta.
  assert ("ls" ∈ ["ls"; "cd"; "ls"]) as Hin by (left).
  assert ("pwd" ∉ ["ls"; "cd"; "ls"]) as Hnin
    by (apply (bool_decide_unpack _); vm_compute; exact I).
  destruct (init_indexes_last_occurrence ["ls"; "cd"; "ls"] "ls")
    as (_ & Hls & _).
  destruct (init_indexes_last_occurrence ["ls"; "cd"; "ls"] "pwd")
    as (_ & _ & Hpwd).
  split_and!; [exact Hin|exact Hnin|exact (Hls Hin)|exact (Hpwd Hnin)].
Defined.

(** X3. Indices are stable under growth: after any [index_for_string] call
    every index [0 <= index < n] of the old table still yields what it
    yielded before. The index [-1] is not stable: after a new string has
    been appended it yields that string. *)
Theorem index_for_string_keeps_positions (self : UniqueStringArray)
    (s : string) (index : Z) (els : option string) :
  let t := (index_for_string self s).2 in
  (0 ≤ index < Z.of_nat (length (_array self)) →
   get_string t index els = get_string self index els) ∧
  (_string_to_index self !! s = None →
   get_string t (- 1) els = ([], Return s)).
Proof.
  intros t. split.
  - intros Hi.
    destruct (lookup_lt_is_Some_2 (_array self) (Z.to_nat index)) as [x Hx];
      [lia|].
    pose proof (prefix_lookup_Some _ _ _ _ Hx (index_for_string_prefix self s))
      as Hx'.
    rewrite <- (Z2Nat.id index) by lia.
    by rewrite (get_string_at _ _ _ _ Hx), (get_string_at _ _ _ _ Hx').
  - intros Hnone. subst t. unfold index_for_string. rewrite Hnone. cbn.
    unfold get_string, has_index, Py.getitem. cbn.
    rewrite length_app. cbn.
    rewrite bool_decide_eq_true_2 by lia. cbn.
    rewrite (decide_True (P := - 1 < 0)) by lia.
    rewrite decide_True by lia.
    replace (Z.to_nat (Z.of_nat (length (_array self) + 1) + -1))
      with (length (_array self)) by lia.
    by rewrite lookup_app_r, Nat.sub_diag by lia.
Qed.

Lemma index_for_string_keeps_positions_witness :
  let self := UniqueStringArray_init (Some ["ls"; "cd"]) in
  let t := (index_for_string self "pwd").2 in
  0 ≤ 1 < Z.of_nat (length (_array self)) ∧
  _string_to_index self !! "pwd" = None ∧
  get_string t 1 None = get_string self 1 None ∧
  get_string t (- 1) None = ([], Return "pwd").
Proof.
  cbv zeta.
  destruct (index_for_string_keeps_positions
              (UniqueStringArray_init (Some ["ls"; "cd"])) "pwd" 1 None)
    as [H1 H2].
  split; [cbn; lia|]. split; [reflexivity|]. split.
  - apply H1. cbn. lia.
  - apply H2. reflexivity.
Defined.

(** X4. Interning a whole sequence into a fresh table: the index returned
    for the [k]-th string is a valid position of the final table, and
    [get_string] at that index returns the [k]-th string. *)
Theorem intern_all_round_trip (ss : list string) (k : nat) (s : string)
    (els : option string) :
  ss !! k = Some s →
  let r := intern_all (UniqueStringArray_init None) ss in
  ∃ index,
    r.1 !! k = Some index ∧
    0 ≤ index < Z.of_nat (length (serialize_to_array r.2)) ∧
    get_string r.2 index els = ([], Return s).
Proof.
  intros Hk r.
  destruct (intern_all_lookup ss _ k s consistent_fresh Hk) as (n & Hi & Hn).
  fold r in Hi, Hn. exists (Z.of_nat n). split_and!; [done|lia| |].
  - apply lookup_lt_Some in Hn. unfold serialize_to_array. lia.
  - by apply get_string_at.
Qed.

Lemma intern_all_round_trip_witness :
  ["ls"; "cd"; "ls"] !! 2%nat = Some "ls" ∧
  ∃ index,
    (intern_all (UniqueStringArray_init None) ["ls"; "cd"; "ls"]).1 !! 2%nat
    = Some index ∧
    get_string (intern_all (UniqueStringArray_init None) ["ls"; "cd"; "ls"]).2
      index None = ([], Return "ls").
Proof.
  split; [reflexivity|].
  destruct (intern_all_round_trip ["ls"; "cd"; "ls"] 2 "ls" None eq_refl)
    as (index & H1 & _ & H2).
  exists index. split; [exact H1|exact H2].
Defined.

(** X5. Below the negative range the bounds check of [get_string] does not
    apply: for [index < -n] (in particular any negative index on an empty
    table) [has_index] answers true and the list access raises
    [IndexError]: "list index out of range" when the index is an
    index-sized integer, "cannot fit 'int' into an index-sized integer"
    when it is below [-maxsize - 1]. A fallback is not used. *)
Theorem get_string_below_range (self : UniqueStringArray) (index : Z)
    (els : option string) :
  index < - Z.of_nat (length (_array self)) →
  has_index self index = true ∧
  get_string self index els
  = ([], Raise (IndexError
                  (if decide (- Py.maxsize - 1 ≤ index)
                   then "list index out of range"
                   else "cannot fit 'int' into an index-sized integer"))).
Proof.
  intros Hi.
  assert (has_index self index = true) as Hh by (apply has_index_true; lia).
  split; [done|]. unfold get_string. rewrite Hh. cbn [negb].
  unfold Py.getitem. cbv zeta.
  rewrite (decide_True (P := index < 0)) by lia.
  rewrite (decide_False (P := 0 ≤ _ < _)) by lia.
  assert (index ≤ Py.maxsize) as Hmax by (unfold Py.maxsize; lia).
  destruct (decide (- Py.maxsize - 1 ≤ index)) as [Hfit|Hfit].
  - by rewrite decide_True by done.
  - by rewrite decide_False by (intros [? ?]; done).
Qed.

Lemma get_string_below_range_witness :
  - 1 < - Z.of_nat (length (_array (UniqueStringArray_init None))) ∧
  - 2 ^ 64 < - Z.of_nat (length (_array (UniqueStringArray_init (Some ["ls"])))) ∧
  get_string (UniqueStringArray_init None) (- 1) (Some "?")
  = ([], Raise (IndexError "list index out of range")) ∧
  get_string (UniqueStringArray_init (Some ["ls"])) (- 2 ^ 64) (Some "?")
  = ([], Raise (IndexError "cannot fit 'int' into an index-sized integer")).
Proof.
  assert (- 1 < - Z.of_nat (length (_array (UniqueStringArray_init None))))
    as H1 by (cbn; lia).
  assert (- 2 ^ 64
          < - Z.of_nat (length (_array (UniqueStringArray_init (Some ["ls"])))))
    as H2 by (cbn; lia).
  split_and!; [exact H1|exact H2| |].
  - exact (proj2 (get_string_below_range _ (- 1) (Some "?") H1)).
  - exact (proj2 (get_string_below_range _ (- 2 ^ 64) (Some "?") H2)).
Defined.

(** X6. After interning any sequence of strings into a fresh table the
    serialized array holds no string twice and holds exactly the strings
    of the sequence. *)
Theorem serialized_is_duplicate_free (ss : list string) :
  let t := (intern_all (UniqueStringArray_init None) ss).2 in
  NoDup (serialize_to_array t) ∧
  ∀ s, s ∈ serialize_to_array t ↔ s ∈ ss.
Proof.
  intros t.
  destruct (intern_all_elements ss _ consistent_fresh) as [[Hnd _] Hset].
  fold t in Hnd, Hset. split; [done|]. intros s. unfold serialize_to_array.
  rewrite <- (elem_of_list_to_set (C:=gset string)), Hset. cbn.
  rewrite elem_of_union, elem_of_list_to_set, elem_of_empty. tauto.
Qed.

Lemma serialized_is_duplicate_free_witness :
  ("cd" ∈ ["ls"; "cd"; "ls"]) ∧
  ("cd" ∈ serialize_to_array
            (intern_all (UniqueStringArray_init None) ["ls"; "cd"; "ls"]).2) ∧
  NoDup (serialize_to_array
           (intern_all (UniqueStringArray_init None) ["ls"; "cd"; "ls"]).2).
Proof.
  assert ("cd" ∈ ["ls"; "cd"; "ls"]) as Hin by (right; left).
  destruct (serialized_is_duplicate_free ["ls"; "cd"; "ls"]) as [Hnd Hiff].
  split_and!; [exact Hin|exact (proj2 (Hiff "cd") Hin)|exact Hnd].
Defined.

(** ** The ANSI filter: what is removed and what is kept *)

Section StripMore.

Implicit Types (s t d : string) (k : string → option string).

Lemma string_app_cons a s t : String a s +:+ t = String a (s +:+ t).
Proof. reflexivity. Qed.

Lemma string_app_nil_l t : "" +:+ t = t.
Proof. reflexivity. Qed.

Lemma string_app_nil_r s : s +:+ "" = s.
Proof. induction s as [|a s IH]; [done|]. by rewrite string_app_cons, IH. Qed.

Lemma string_app_assoc s t u : (s +:+ t) +:+ u = s +:+ (t +:+ u).
Proof. induction s as [|a s IH]; [done|]. by rewrite !string_app_cons, IH. Qed.

Lemma string_length_app s t :
  String.length (s +:+ t) = (String.length s + String.length t)%nat.
Proof. induction s as [|a s IH]; [done|]. rewrite string_app_cons. cbn. lia. Qed.

Lemma bt_Plus r s k :
  Re.bt (Re.Plus r) s k = Re.bt r s (λ s', bt_rep r k (String.length s') s').
Proof. reflexivity. Qed.

Lemma bt_Upto n r s k : Re.bt (Re.Upto n r) s k = bt_rep r k n s.
Proof. reflexivity. Qed.

Lemma bt_Cat r1 r2 s k :
  Re.bt (Re.Cat r1 r2) s k = Re.bt r1 s (λ s', Re.bt r2 s' k).
Proof. reflexivity. Qed.

Lemma bt_Chr_hit a s k : Re.bt (Re.Chr a) (String a s) k = k s.
Proof. cbn. by rewrite Ascii.eqb_refl. Qed.

Lemma bt_Chr_miss a b s k :
  Ascii.eqb b a = false → Re.bt (Re.Chr a) (String b s) k = None.
Proof. intros H. cbn. by rewrite H. Qed.

Lemma bt_rep_S r k n s :
  bt_rep r k (S n) s
  = match Re.bt r s (bt_rep r k n) with Some x => Some x | None => k s end.
Proof. reflexivity. Qed.

Lemma digit_is_no_punctuation a :
  Re.is_digit a = true →
  Ascii.eqb a ";" = false ∧ Ascii.eqb a "m" = false ∧ Ascii.eqb a ESC = false.
Proof. destruct a as [[] [] [] [] [] [] [] []]; cbn; intros; done. Qed.

(** Greedy digits: when the continuation refuses every text that starts
    with a digit, giving digits back never helps, and the loop ends where
    the digits end. *)
Lemma bt_rep_digits k d : ∀ n t,
  Py.all Re.is_digit d = true → (String.length d ≤ n)%nat →
  starts_with_digit t = false →
  (∀ u, starts_with_digit u = true → k u = None) →
  bt_rep Re.Digit k n (d +:+ t) = k t.
Proof.
  induction d as [|a d IH]; intros n t Hd Hn Ht Hk.
  - rewrite string_app_nil_l. destruct n as [|n]; [done|]. cbn.
    destruct t as [|b t]; [done|]. cbn in Ht. by rewrite Ht.
  - cbn in Hd. apply andb_true_iff in Hd as [Ha Hd].
    destruct n as [|n]; [cbn in Hn; lia|].
    rewrite string_app_cons. cbn [bt_rep Re.bt]. rewrite Ha.
    rewrite IH by (try done; cbn in Hn; lia).
    destruct (k t) eqn:E; [done|]. by rewrite Hk.
Qed.

Lemma bt_Plus_digits k d t :
  number d = true → starts_with_digit t = false →
  (∀ u, starts_with_digit u = true → k u = None) →
  Re.bt (Re.Plus Re.Digit) (d +:+ t) k = k t.
Proof.
  intros [Hne Hd]%andb_true_iff Ht Hk. destruct d as [|a d]; [done|].
  cbn in Hd. apply andb_true_iff in Hd as [Ha Hd].
  rewrite bt_Plus, string_app_cons. cbn [Re.bt]. rewrite Ha.
  apply bt_rep_digits; try done. rewrite string_length_app. lia.
Qed.

(** The group [(;\d+)] of the pattern and what follows it. *)
Let group : Re.regex := Re.Cat (Re.Chr ";") (Re.Plus Re.Digit).
Let final : string → option string := λ s, Re.bt (Re.Chr "m") s Some.

Lemma final_refuses_digit u : starts_with_digit u = true → final u = None.
Proof.
  destruct u as [|a u]; [done|]. cbn. intros Ha.
  by destruct (digit_is_no_punctuation a Ha) as (_ & -> & _).
Qed.

Lemma groups_refuse_digit n u :
  starts_with_digit u = true → bt_rep group final n u = None.
Proof.
  intros Hu. pose proof (final_refuses_digit u Hu) as Hf.
  destruct u as [|a u]; [done|]. cbn in Hu.
  destruct (digit_is_no_punctuation a Hu) as (Hsemi & _ & _).
  destruct n as [|n]; [done|].
  rewrite bt_rep_S. unfold group at 1. rewrite bt_Cat, bt_Chr_miss by done.
  exact Hf.
Qed.

Lemma sgr_tail_no_digit ps t : starts_with_digit (sgr_tail ps t) = false.
Proof. by destruct ps. Qed.

(** At most [n] groups are consumed; with more than [n] groups in the text
    the final letter is not found and the match fails. *)
Lemma bt_rep_groups n : ∀ ps t,
  Forall (λ p, number p = true) ps →
  bt_rep group final n (sgr_tail ps t)
  = if decide (length ps ≤ n)%nat then Some t else None.
Proof.
  induction n as [|n IH]; intros ps t Hps.
  - destruct ps as [|p ps]; [done|]. cbn. by rewrite decide_False by lia.
  - destruct ps as [|p ps]; [done|].
    apply Forall_cons in Hps as [Hp Hps].
    cbn [sgr_tail]. rewrite bt_rep_S. unfold group at 1.
    rewrite bt_Cat, bt_Chr_hit.
    rewrite bt_Plus_digits;
      [|done|apply sgr_tail_no_digit|apply groups_refuse_digit].
    rewrite IH by done. cbn [length].
    destruct (decide (length ps ≤ n)%nat).
    + by rewrite decide_True by lia.
    + by rewrite decide_False by lia.
Qed.

Lemma sgr_cons p ps t :
  sgr (p :: ps) +:+ t = String ESC (String "[" (p +:+ sgr_tail ps t)).
Proof.
  unfold sgr. rewrite !string_app_cons. do 2 f_equal.
  rewrite string_app_assoc. change ("m" +:+ t) with (String "m" t).
  revert p. induction ps as [|q ps IH]; intros p; [done|].
  change (String.concat ";" (p :: q :: ps))
    with (p +:+ ";" +:+ String.concat ";" (q :: ps)).
  rewrite !string_app_assoc, IH. done.
Qed.

Lemma bt_pattern_sgr p ps t :
  number p = true → Forall (λ p, number p = true) ps →
  Re.bt pattern (sgr (p :: ps) +:+ t) Some
  = if decide (length ps ≤ 2)%nat then Some t else None.
Proof.
  intros Hp Hps. rewrite sgr_cons. unfold pattern.
  rewrite bt_Cat, bt_Chr_hit, bt_Cat, bt_Chr_hit, bt_Cat.
  rewrite bt_Plus_digits;
    [|done|apply sgr_tail_no_digit|apply (groups_refuse_digit 2)].
  rewrite bt_Cat, bt_Upto. apply (bt_rep_groups 2); done.
Qed.

Lemma sub_empty_skip r u : ∀ n t,
  String.length u = n → Re.sub_empty r n (u +:+ t) = Re.sub_empty r 0 t.
Proof.
  induction u as [|a u IH]; intros n t Hn; cbn in Hn; subst n; [done|].
  rewrite string_app_cons. cbn [Re.sub_empty]. by apply IH.
Qed.

Lemma sub_empty_keeps_prefix s t :
  Py.mem ESC s = false →
  Re.sub_empty pattern 0 (s +:+ t) = s +:+ Re.sub_empty pattern 0 t.
Proof.
  induction s as [|a s IH]; [done|]. cbn [Py.mem].
  intros [Ha Hs]%orb_false_iff. rewrite Ascii.eqb_sym in Ha.
  rewrite !string_app_cons. cbn [Re.sub_empty].
  by rewrite (match_len_needs_ESC _ _ Ha), IH.
Qed.

Lemma sub_empty_length r s : ∀ n,
  (String.length (Re.sub_empty r n s) ≤ String.length s)%nat.
Proof.
  induction s as [|a s IH]; intros n; [done|]. cbn [Re.sub_empty].
  destruct n as [|n].
  - destruct (Re.match_len r (String a s)) as [[|m]|]; cbn.
    + specialize (IH 0%nat). lia.
    + specialize (IH m). lia.
    + specialize (IH 0%nat). lia.
  - specialize (IH n). cbn. lia.
Qed.

Lemma mem_app a s t : Py.mem a (s +:+ t) = Py.mem a s || Py.mem a t.
Proof.
  induction s as [|b s IH]; [done|]. rewrite string_app_cons. cbn.
  by rewrite IH, orb_assoc.
Qed.

Lemma number_without_ESC p : number p = true → Py.mem ESC p = false.
Proof.
  intros [_ Hd]%andb_true_iff. induction p as [|a p IH]; [done|].
  cbn in Hd. apply andb_true_iff in Hd as [Ha Hd]. cbn [Py.mem].
  destruct (digit_is_no_punctuation a Ha) as (_ & _ & HE).
  rewrite Ascii.eqb_sym, HE. by apply IH.
Qed.

Lemma sgr_tail_without_ESC ps :
  Forall (λ p, number p = true) ps → Py.mem ESC (sgr_tail ps "") = false.
Proof.
  induction 1 as [|p ps Hp _ IH]; [done|]. cbn [sgr_tail Py.mem].
  rewrite mem_app, (number_without_ESC p Hp), IH. done.
Qed.

Lemma sgr_tail_app ps t : sgr_tail ps t = sgr_tail ps "" +:+ t.
Proof.
  induction ps as [|p ps IH]; [done|]. cbn.
  by rewrite IH, string_app_cons, string_app_assoc.
Qed.

Lemma match_len_sgr p ps t :
  number p = true → Forall (λ p, number p = true) ps →
  Re.match_len pattern (sgr (p :: ps) +:+ t)
  = if decide (length ps ≤ 2)%nat
    then Some (String.length (sgr (p :: ps))) else None.
Proof.
  intros Hp Hps. unfold Re.match_len. rewrite bt_pattern_sgr by done.
  case_decide; [|done]. cbn [fmap option_fmap option_map]. f_equal.
  rewrite string_length_app. lia.
Qed.

Lemma sub_empty_unmatched u t :
  Re.match_len pattern (String ESC (u +:+ t)) = None →
  Py.mem ESC u = false →
  Re.sub_empty pattern 0 (String ESC u +:+ t)
  = String ESC u +:+ Re.sub_empty pattern 0 t.
Proof.
  intros Hm Hu. rewrite !string_app_cons. cbn [Re.sub_empty].
  by rewrite Hm, sub_empty_keeps_prefix.
Qed.

Lemma sub_empty_sublist r s : ∀ n,
  String.list_ascii_of_string (Re.sub_empty r n s)
  `sublist_of` String.list_ascii_of_string s.
Proof.
  induction s as [|a s IH]; intros n; [done|]. cbn [Re.sub_empty].
  destruct n as [|n].
  - destruct (Re.match_len r (String a s)) as [[|m]|]; cbn.
    + by apply sublist_skip.
    + by apply sublist_cons.
    + by apply sublist_skip.
  - cbn. by apply sublist_cons.
Qed.

End StripMore.

(** X7. [strip_ansi] only deletes characters: the result is the input
    with some characters left out, in the same order, so it is never
    longer than the input. *)
Theorem strip_ansi_only_deletes (s : string) :
  String.list_ascii_of_string (strip_ansi s)
  `sublist_of` String.list_ascii_of_string s ∧
  (String.length (strip_ansi s) ≤ String.length s)%nat.
Proof.
  split; [apply sub_empty_sublist|apply sub_empty_length].
Qed.

(** X8. An escape sequence [ESC [ p1 m], [ESC [ p1 ; p2 m] or
    [ESC [ p1 ; p2 ; p3 m], every parameter a non-empty string of digits,
    is removed wherever the scan meets it: stripping the sequence followed
    by any text gives the stripped text. *)
Theorem strip_ansi_removes_sgr (p : string) (ps : list string) (t : string) :
  number p = true → Forall (λ q, number q = true) ps → (length ps ≤ 2)%nat →
  strip_ansi (sgr (p :: ps) +:+ t) = strip_ansi t.
Proof.
  intros Hp Hps Hlen. unfold strip_ansi.
  pose proof (match_len_sgr p ps t Hp Hps) as Hm.
  rewrite decide_True in Hm by done.
  unfold sgr in *. rewrite string_app_cons in *. cbn [Re.sub_empty].
  rewrite Hm. cbn [String.length]. by apply sub_empty_skip.
Qed.

Lemma strip_ansi_removes_sgr_witness :
  number "1" = true ∧ Forall (λ q, number q = true) ["32"] ∧
  (length ["32"] ≤ 2)%nat ∧
  strip_ansi (sgr ["1"; "32"] +:+ "ok") = strip_ansi "ok".
Proof.
  assert (Forall (λ q, number q = true) ["32"]) as Hps
    by (repeat constructor).
  assert (length ["32"] ≤ 2)%nat as Hlen by (cbn; lia).
  split_and!; [reflexivity|exact Hps|exact Hlen|].
  exact (strip_ansi_removes_sgr "1" ["32"] "ok" eq_refl Hps Hlen).
Defined.

(** X9. Text without an ESC character in front of any other text is
    copied unchanged: [strip_ansi(s + t) = s + strip_ansi(t)]. *)
Theorem strip_ansi_keeps_clean_prefix (s t : string) :
  Py.mem ESC s = false → strip_ansi (s +:+ t) = s +:+ strip_ansi t.
Proof. apply sub_empty_keeps_prefix. Qed.

Lemma strip_ansi_keeps_clean_prefix_witness :
  Py.mem ESC "make: " = false ∧
  strip_ansi ("make: " +:+ sgr ["31"] +:+ "error")
  = "make: " +:+ strip_ansi (sgr ["31"] +:+ "error").
Proof.
  split; [reflexivity|].
  exact (strip_ansi_keeps_clean_prefix "make: " (sgr ["31"] +:+ "error") eq_refl).
Defined.

(** X10. The pattern accepts one to three parameters only: an escape
    sequence with no parameter ([ESC [ m]) or with four or more is not
    removed; it is copied to the result and the scan goes on behind it. *)
Theorem strip_ansi_keeps_other_sgr (ps : list string) (t : string) :
  Forall (λ q, number q = true) ps → ps = [] ∨ (4 ≤ length ps)%nat →
  strip_ansi (sgr ps +:+ t) = sgr ps +:+ strip_ansi t.
Proof.
  intros Hps Hlen. unfold strip_ansi.
  destruct ps as [|p ps].
  - unfold sgr. apply sub_empty_unmatched; done.
  - destruct Hlen as [|Hlen]; [done|]. cbn in Hlen.
    apply Forall_cons in Hps as [Hp Hps].
    pose proof (match_len_sgr p ps t Hp Hps) as Hm.
    rewrite decide_False in Hm by lia.
    assert (sgr (p :: ps) = String ESC (String "[" (p +:+ sgr_tail ps "")))
      as Hs by (by rewrite <- (sgr_cons p ps ""), string_app_nil_r).
    rewrite Hs in *. apply sub_empty_unmatched; [exact Hm|].
    cbn [Py.mem]. rewrite mem_app, (number_without_ESC p Hp).
    by rewrite (sgr_tail_without_ESC ps Hps).
Qed.

Lemma strip_ansi_keeps_other_sgr_witness :
  Forall (λ q, number q = true) ["38"; "5"; "208"; "1"] ∧
  (4 ≤ length ["38"; "5"; "208"; "1"])%nat ∧
  strip_ansi (sgr ["38"; "5"; "208"; "1"] +:+ "warn")
  = sgr ["38"; "5"; "208"; "1"] +:+ strip_ansi "warn".
Proof.
  assert (Forall (λ q, number q = true) ["38"; "5"; "208"; "1"]) as Hps
    by (repeat constructor).
  assert (4 ≤ length ["38"; "5"; "208"; "1"])%nat as Hlen by (cbn; lia).
  split_and!; [exact Hps|exact Hlen|].
  exact (strip_ansi_keeps_other_sgr _ "warn" Hps (or_intror Hlen)).
Defined.

(** ** The trace recorder: what is echoed and what is stored *)

Section Recorder.

Implicit Types (s t line : string).

Lemma lstrip_blank s : blank s = true → Py.lstrip s = "".
Proof.
  unfold blank. induction s as [|a s IH]; [done|]. cbn.
  intros [Ha Hs]%andb_true_iff. rewrite Ha. by apply IH.
Qed.

Lemma lstrip_not_blank s :
  blank s = false →
  ∃ a t, Py.lstrip s = String a t ∧ Py.isspace a = false.
Proof.
  unfold blank. induction s as [|a s IH]; [done|]. cbn [Py.all Py.lstrip].
  destruct (Py.isspace a) eqn:Ha; cbn; [done|]. intros _. eauto.
Qed.

Lemma rstrip_keeps_head a t :
  Py.isspace a = false → Py.nonempty (Py.rstrip (String a t)) = true.
Proof. intros Ha. cbn. rewrite Ha. by destruct (Py.rstrip t). Qed.

(** The test [if line.strip()] fails exactly for white-space-only lines. *)
Lemma strip_nonempty s : Py.nonempty (Py.strip s) = negb (blank s).
Proof.
  unfold Py.strip. destruct (blank s) eqn:Hb.
  - by rewrite lstrip_blank.
  - destruct (lstrip_not_blank s Hb) as (a & t & -> & Ha).
    by rewrite rstrip_keeps_head.
Qed.

Lemma drop_last_snoc s (c : ascii) : Py.drop_last (s +:+ String c "") = s.
Proof.
  induction s as [|a s IH]; [done|].
  rewrite string_app_cons. cbn [Py.drop_last]. rewrite IH.
  by destruct s.
Qed.

Lemma read_lines_echo (lines : list (string * datetime)) :
  (read_lines lines).1 = (λ p, Print Stdout (Py.drop_last p.1)) <$> lines.
Proof.
  induction lines as [|[line now] lines IH]; [done|]. cbn.
  destruct (read_lines lines) as [trace buffer]. cbn in *. by rewrite IH.
Qed.

Lemma read_lines_buffer (lines : list (string * datetime)) :
  (read_lines lines).2
  = (λ p, (p.2, strip_ansi p.1)) <$> filter (λ p, blank p.1 = false) lines.
Proof.
  induction lines as [|[line now] lines IH]; [done|]. cbn [read_lines].
  destruct (read_lines lines) as [trace buffer]. cbn in IH. cbn [snd].
  rewrite strip_nonempty, filter_cons. cbn [fst].
  destruct (blank line); cbn.
  - by rewrite decide_False by done.
  - rewrite decide_True by done. by rewrite IH.
Qed.

End Recorder.

(** X11. [run_command] on a command whose output stream exists: the
    command is spawned first; then every line is echoed, in order, without
    its last character; the lines stored are those that are not made of
    white space only, in order, each with the clock value read for it and
    its text passed through [strip_ansi]. *)
Theorem run_command_echoes_all_stores_non_blank (command : list string)
    (lines : list (string * datetime)) :
  run_command command (Some lines)
  = (Popen (Shlex.join command)
       :: ((λ p, Print Stdout (Py.drop_last p.1)) <$> lines),
     Return ((λ p, (p.2, strip_ansi p.1))
               <$> filter (λ p, blank p.1 = false) lines)).
Proof.
  unfold run_command.
  pose proof (read_lines_echo lines) as He.
  pose proof (read_lines_buffer lines) as Hb.
  destruct (read_lines lines) as [trace buffer]. cbn in He, Hb.
  by rewrite He, Hb.
Qed.

(** X12. The echo drops the last character of a line whatever it is: a
    line [body + c] is echoed as [body], so a final line that does not end
    in a line terminator is echoed without its last character. *)
Theorem echo_drops_last_character (body : string) (c : ascii)
    (now : datetime) (rest : list (string * datetime)) :
  (read_lines ((body +:+ String c "", now) :: rest)).1
  = Print Stdout body :: (read_lines rest).1.
Proof.
  rewrite !read_lines_echo. cbn. by rewrite drop_last_snoc.
Qed.

(** ** The profile builder: the table row by row *)

Section BuilderMore.

Implicit Types (m : MarkerTable) (u : UniqueStringArray).
Implicit Types (buffer : list (datetime * string)) (now pst : Qc).

(** The loop in closed form, for an interner that already knows the
    marker name. *)
Lemma foldl_add_marker_closed pst d buffer u i : ∀ m,
  index_for_string u "sh-profile" = (i, u) →
  let n := length buffer in
  foldl (add_marker pst d) (m, u) buffer
  = ({| markers_data := markers_data m ++ (payload <$> buffer);
        markers_name := markers_name m ++ replicate n i;
        markers_startTime :=
          markers_startTime m
          ++ ((λ ev, (get_timestamp_ms ev.1 - pst)%Qc) <$> buffer);
        markers_endTime := markers_endTime m ++ replicate n None;
        markers_phase := markers_phase m ++ replicate n 0;
        markers_category :=
          markers_category m ++ replicate n (default 0 (d !! "sh-profile"));
        markers_length := markers_length m + Z.of_nat n |}, u).
Proof.
  induction buffer as [|[dt line] buffer IH]; intros m Hu; cbn zeta.
  { cbn. rewrite !app_nil_r, Z.add_0_r. by destruct m. }
  cbn [foldl]. unfold add_marker at 2. rewrite Hu.
  rewrite IH by done. cbn [markers_data markers_name markers_startTime
    markers_endTime markers_phase markers_category markers_length].
  rewrite <- !app_assoc. cbn [length replicate fmap list_fmap app].
  do 2 f_equal. unfold payload. cbn [fst snd]. lia.
Qed.

Lemma named_interner_stable :
  index_for_string named_interner "sh-profile" = (0, named_interner).
Proof. reflexivity. Qed.

(** [build_profile] in closed form: the one thread it attaches. *)
Lemma build_profile_thread now buffer :
  let n := length buffer in
  profile_threads (build_profile now buffer)
  = [ {| thread_processType := "default";
         thread_name := "sh-profile";
         thread_isMainThread := true;
         thread_pid := "0";
         thread_tid := 0;
         thread_markers :=
           {| markers_data := payload <$> buffer;
              markers_name := replicate n 0;
              markers_startTime := relative_start buffer <$> buffer;
              markers_endTime := replicate n None;
              markers_phase := replicate n 0;
              markers_category := replicate n 0;
              markers_length := Z.of_nat n |};
         thread_stringArray :=
           match buffer with [] => [] | _ :: _ => ["sh-profile"] end |} ].
Proof.
  destruct buffer as [|[dt line] buffer]; [reflexivity|].
  unfold build_profile. cbv zeta.
  match goal with |- context [foldl ?f ?a ?l] =>
    assert (foldl f a l
            = foldl (add_marker (get_timestamp_ms dt) category_dict)
                (add_marker (get_timestamp_ms dt) category_dict
                   (thread_markers get_empty_thread, UniqueStringArray_init None)
                   (dt, line)) buffer) as -> by reflexivity end.
  change (add_marker (get_timestamp_ms dt) category_dict
            (thread_markers get_empty_thread, UniqueStringArray_init None)
            (dt, line))
    with ({| markers_data := [payload (dt, line)];
             markers_name := [0];
             markers_startTime :=
               [(get_timestamp_ms dt - get_timestamp_ms dt)%Qc];
             markers_endTime := [None];
             markers_phase := [0];
             markers_category := [default 0 (category_dict !! "sh-profile")];
             markers_length := 0 + 1 |}, named_interner).
  rewrite (foldl_add_marker_closed _ _ _ _ 0 _ named_interner_stable).
  cbn [fst snd markers_data markers_name markers_startTime markers_endTime
       markers_phase markers_category markers_length app length replicate
       fmap list_fmap].
  replace (default 0 (category_dict !! "sh-profile")) with 0 by reflexivity.
  replace (0 + 1 + Z.of_nat (length buffer))
    with (Z.of_nat (S (length buffer))) by lia.
  reflexivity.
Qed.

Lemma build_profile_categories now buffer :
  meta_categories (profile_meta (build_profile now buffer)) = get_categories.
Proof.
  unfold build_profile. cbv zeta. destruct (foldl _ _ buffer).
  by destruct buffer as [|[??]?].
Qed.

Lemma Qcminus_nonneg (x y : Qc) : (x ≤ y)%Qc → (0 ≤ y - x)%Qc.
Proof.
  intros H. rewrite <- (Qcminus_diag x). by apply Qcminus_le_mono_r.
Qed.

End BuilderMore.

(** X13. Row [i] of the built marker table describes event [i] of the
    input: its start time is the event's time stamp in milliseconds minus
    that of the first event, it has no end time and phase 0 (an instant
    marker), and its payload carries the event's text as [line], the
    event's time formatted with ["%H:%M:%S"] and ["%Y-%m-%d"] as [hour]
    and [date], and ["sh-profile"] as [type] and [name]. *)
Theorem marker_row_describes_event (now : Qc)
    (buffer : list (datetime * string)) (i : nat) (ev : datetime * string) :
  buffer !! i = Some ev →
  ∃ thread d,
    profile_threads (build_profile now buffer) = [thread] ∧
    markers_startTime (thread_markers thread) !! i
    = Some (relative_start buffer ev) ∧
    markers_endTime (thread_markers thread) !! i = Some None ∧
    markers_phase (thread_markers thread) !! i = Some 0 ∧
    markers_data (thread_markers thread) !! i = Some d ∧
    data_type d = "sh-profile" ∧ data_name d = "sh-profile" ∧
    data_line d = ev.2 ∧
    data_hour d = strftime ev.1 "%H:%M:%S" ∧
    data_date d = strftime ev.1 "%Y-%m-%d".
Proof.
  intros Hi. apply lookup_lt_Some in Hi as Hlt.
  eexists _, (payload ev). split; [apply build_profile_thread|].
  cbn [thread_markers markers_startTime markers_endTime markers_phase
       markers_data].
  rewrite !list_lookup_fmap, Hi, !lookup_replicate_2 by done. done.
Qed.

Lemma marker_row_describes_event_witness :
  let buffer := [(at_second 7, "make"); (at_second 9, "done")] in
  buffer !! 1%nat = Some (at_second 9, "done") ∧
  ∃ thread d,
    profile_threads (build_profile 0%Qc buffer) = [thread] ∧
    markers_data (thread_markers thread) !! 1%nat = Some d ∧
    data_line d = "done".
Proof.
  cbv zeta. split; [reflexivity|].
  destruct (marker_row_describes_event 0%Qc
              [(at_second 7, "make"); (at_second 9, "done")] 1
              (at_second 9, "done") eq_refl)
    as (thread & d & H1 & _ & _ & _ & H2 & _ & _ & H3 & _).
  exists thread, d. split_and!; [exact H1|exact H2|exact H3].
Defined.

(** X14. The indices stored in the marker table resolve: every entry of
    the [name] column is a position of the thread's string array that
    holds ["sh-profile"], and every entry of the [category] column is a
    position of [meta.categories] whose category is named ["sh-profile"].
    The string array is [["sh-profile"]] when there is at least one event
    and empty when there is none. *)
Theorem marker_indices_resolve (now : Qc) (buffer : list (datetime * string)) :
  ∃ thread,
    profile_threads (build_profile now buffer) = [thread] ∧
    thread_stringArray thread
    = match buffer with [] => [] | _ :: _ => ["sh-profile"] end ∧
    Forall (λ index, 0 ≤ index ∧
                     thread_stringArray thread !! Z.to_nat index
                     = Some "sh-profile")
      (markers_name (thread_markers thread)) ∧
    Forall (λ index, 0 ≤ index ∧
                     category_name
                       <$> meta_categories
                             (profile_meta (build_profile now buffer))
                           !! Z.to_nat index
                     = Some "sh-profile")
      (markers_category (thread_markers thread)).
Proof.
  eexists. split; [apply build_profile_thread|].
  cbn [thread_stringArray thread_markers markers_name markers_category].
  rewrite build_profile_categories.
  destruct buffer as [|ev buffer]; [by repeat split|].
  split; [done|]. split; by apply Forall_replicate.
Qed.

(** X15. When the time stamps of the events never decrease, no marker
    starts before the profile does: every relative start time is at
    least 0. *)
Theorem relative_start_times_nonnegative (now : Qc)
    (buffer : list (datetime * string)) :
  Sorted not_later buffer →
  Forall (λ t, (0 ≤ t)%Qc)
    (markers_startTime (built_markers (build_profile now buffer))).
Proof.
  intros Hs. destruct (built_columns now buffer) as [-> _].
  apply Forall_fmap, Forall_forall. intros ev Hev. cbn.
  apply (Sorted_StronglySorted not_later) in Hs.
  destruct buffer as [|ev0 buffer]; [by apply elem_of_nil in Hev|].
  cbn. apply Qcminus_nonneg, get_timestamp_ms_mono.
  apply StronglySorted_inv in Hs as [_ Hall].
  apply elem_of_cons in Hev as [->|Hev]; [apply Qcle_refl|].
  by apply (proj1 (Forall_forall _ _) Hall).
Qed.

Lemma relative_start_times_nonnegative_witness :
  let buffer := [(at_second 7, "make"); (at_second 7, "cc main.c");
                 (at_second 9, "done")] in
  Sorted not_later buffer ∧
  Forall (λ t, (0 ≤ t)%Qc)
    (markers_startTime (built_markers (build_profile 0%Qc buffer))).
Proof.
  cbv zeta.
  assert (Sorted not_later
            [(at_second 7, "make"); (at_second 7, "cc main.c");
             (at_second 9, "done")]) as Hs.
  { repeat constructor; unfold not_later; cbn; by vm_compute. }
  split; [exact Hs|].
  exact (relative_start_times_nonnegative 0%Qc _ Hs).
Defined.

(** X16. Recorder and builder composed: the profile built from what
    [run_command] stored has one marker for each output line that is not
    made of white space only, and the [line] entries of the payloads are
    those lines, in order, passed through [strip_ansi]. *)
Theorem one_marker_per_non_blank_line (now : Qc)
    (lines : list (string * datetime)) :
  let kept := filter (λ p, blank p.1 = false) lines in
  let m := built_markers (build_profile now (read_lines lines).2) in
  markers_length m = Z.of_nat (length kept) ∧
  data_line <$> markers_data m = (λ p, strip_ansi p.1) <$> kept.
Proof.
  intros kept m.
  destruct (built_columns now (read_lines lines).2)
    as (_ & Hd & _ & _ & _ & _ & Hl).
  fold m in Hd, Hl. rewrite Hd, Hl, read_lines_buffer. fold kept.
  rewrite length_fmap. split; [done|].
  rewrite <- !list_fmap_compose. done.
Qed.

(** ** The publication server: delivery *)

Section ServerMore.

Implicit Types (g : globals) (r : request) (rs : list request).

Ltac handle_cases r :=
  destruct r as [[| |? [] |?] [] [] [|]];
  unfold handle_request, do_GET, do_HEAD, send_error, _set_headers,
    write_head, response_head, clears_flag;
  cbn [request_reading request_version09 request_head_fails
       request_body_error orb negb andb];
  repeat case_decide; subst.

Lemma handle_request_profile_data g r :
  profile_data (handle_request g r).2 = profile_data g.
Proof. handle_cases r; done. Qed.

Lemma handle_request_heads g r :
  filter (λ e, is_head e = true) (handle_request g r).1
  = option_list (response_head r).
Proof.
  handle_cases r; try done;
    try (destruct (profile_data g); done);
    try (exfalso; intuition congruence).
Qed.

Lemma handle_request_bodies g r :
  bodies (handle_request g r).1
  = if clears_flag r then
      match profile_data g, request_body_error r with
      | Some data, None => [data]
      | _, _ => []
      end
    else [].
Proof.
  handle_cases r; try done;
    try (rewrite bool_decide_eq_true_2 by done);
    try (rewrite bool_decide_eq_false_2 by done);
    cbn [andb]; try done; by destruct (profile_data g).
Qed.

Lemma handle_request_prints_no_help g r f :
  PrintHelp f ∉ (handle_request g r).1.
Proof.
  handle_cases r; try (destruct (profile_data g)); cbn;
    rewrite ?elem_of_cons, elem_of_nil; intros Hin; decompose [or] Hin; done.
Qed.

Lemma serve_prints_no_help rs f : ∀ g,
  PrintHelp f ∉ served_trace (serve g rs).
Proof.
  induction rs as [|r rs IH]; intros g;
    destruct (waiting_for_request g) eqn:Hw.
  - cbn. rewrite Hw. cbn. apply not_elem_of_nil.
  - rewrite serve_stopped by done. apply not_elem_of_nil.
  - rewrite serve_cons by done. cbn [served_trace].
    intros [H|H]%elem_of_app.
    + by apply handle_request_prints_no_help in H.
    + by apply IH in H.
  - rewrite serve_stopped by done. apply not_elem_of_nil.
Qed.

Lemma bodies_app t1 t2 : bodies (t1 ++ t2) = bodies t1 ++ bodies t2.
Proof. apply omap_app. Qed.

Lemma serve_bodies_before_GET rs : ∀ g get after,
  waiting_for_request g = true →
  Forall (λ r, clears_flag r = false) rs →
  clears_flag get = true →
  bodies (served_trace (serve g (rs ++ get :: after)))
  = bodies (handle_request g get).1.
Proof.
  induction rs as [|r rs IH]; intros g get after Hw Hrs Hget.
  - cbn [app]. rewrite serve_cons by done. cbn [served_trace].
    rewrite serve_stopped by (by apply handle_request_clears).
    cbn [served_trace]. by rewrite app_nil_r.
  - apply Forall_cons in Hrs as [Hr Hrs].
    cbn [app]. rewrite serve_cons by done. cbn [served_trace].
    rewrite bodies_app, handle_request_bodies, Hr.
    rewrite (handle_request_keeps _ _ Hr). by apply IH.
Qed.

End ServerMore.

(** X17. The serving loop handles a prefix of the incoming requests, in
    order, and leaves the rest unanswered: no request is skipped or
    handled twice. The serialized profile held in [profile_data] is never
    changed by serving. When the loop is left waiting, every request has
    been handled. *)
Theorem serve_handles_a_prefix (g : globals) (incoming : list request) :
  let s := serve g incoming in
  served_handled s ++ served_unanswered s = incoming ∧
  profile_data (served_globals s) = profile_data g ∧
  (served_end s = Blocked → served_unanswered s = []).
Proof.
  revert g. induction incoming as [|r rs IH]; intros g;
    destruct (waiting_for_request g) eqn:Hw.
  - cbn. by rewrite Hw.
  - by rewrite serve_stopped.
  - rewrite serve_cons by done. cbn.
    destruct (IH (handle_request g r).2) as (H1 & H2 & H3).
    rewrite H1, H2, handle_request_profile_data. done.
  - by rewrite serve_stopped.
Qed.

Lemma serve_handles_a_prefix_witness :
  let s := serve (serving "{}") [HEAD_request; HEAD_request] in
  served_end s = Blocked ∧ served_unanswered s = [] ∧
  served_handled s = [HEAD_request; HEAD_request].
Proof.
  cbv zeta.
  assert (served_end (serve (serving "{}") [HEAD_request; HEAD_request])
          = Blocked) as He by reflexivity.
  destruct (serve_handles_a_prefix (serving "{}") [HEAD_request; HEAD_request])
    as (H1 & _ & H3).
  cbv zeta in H1, H3. specialize (H3 He).
  split_and!; [exact He|exact H3|].
  rewrite H3, app_nil_r in H1. exact H1.
Defined.

(** X18. Started with the flag set, the loop stops exactly when a request
    arrives that clears the flag: a GET that reaches [do_GET] and gets
    past [_set_headers()]. Without one it is left waiting, however many
    HEAD requests, other methods, rejected requests, or GET requests whose
    status line cannot be written it handles. *)
Theorem serve_stops_iff_GET_arrives (g : globals) (incoming : list request) :
  waiting_for_request g = true →
  served_end (serve g incoming) = Stopped ↔
  Exists (λ r, clears_flag r = true) incoming.
Proof.
  revert g. induction incoming as [|r rs IH]; intros g Hw.
  - cbn. rewrite Hw. cbn. split; [done|]. by intros ?%Exists_nil.
  - rewrite serve_cons by done. cbn. rewrite Exists_cons.
    destruct (clears_flag r) eqn:Hr.
    + rewrite serve_stopped by (by apply handle_request_clears). cbn. tauto.
    + rewrite (handle_request_keeps _ _ Hr), (IH g Hw).
      split; [tauto|]. by intros [?|?].
Qed.

Lemma serve_stops_iff_GET_arrives_witness :
  let g := {| waiting_for_request := true; profile_data := Some "{}" |} in
  let unwritable :=
    {| request_reading := Parsed "GET"; request_version09 := false;
       request_head_fails := true; request_body_error := None |} in
  waiting_for_request g = true ∧
  served_end (serve g [HEAD_request; unwritable]) ≠ Stopped.
Proof.
  cbv zeta. split; [reflexivity|].
  intros H.
  apply (serve_stops_iff_GET_arrives
           {| waiting_for_request := true; profile_data := Some "{}" |}
           _ eq_refl) in H.
  apply Exists_cons in H as [H|H]; [discriminate H|].
  apply Exists_cons in H as [H|H]; [discriminate H|].
  by apply Exists_nil in H.
Defined.

(** X19. Whatever requests arrive, a run of the loop writes the
    serialized profile at most once (every other body it writes is the
    page of an error answer). *)
Theorem serve_writes_body_at_most_once (g : globals)
    (incoming : list request) :
  let written := bodies (served_trace (serve g incoming)) in
  written = [] ∨ ∃ data, profile_data g = Some data ∧ written = [data].
Proof.
  revert g. induction incoming as [|r rs IH]; intros g;
    destruct (waiting_for_request g) eqn:Hw; cbv zeta.
  - cbn. rewrite Hw. by left.
  - rewrite serve_stopped by done. by left.
  - rewrite serve_cons by done. cbn [served_trace].
    rewrite bodies_app, handle_request_bodies.
    destruct (clears_flag r) eqn:Hr.
    + rewrite serve_stopped by (by apply handle_request_clears).
      cbn [served_trace bodies omap list_omap]. rewrite app_nil_r.
      destruct (profile_data g) as [data|]; [|by left].
      destruct (request_body_error r); [by left|right; eauto].
    + rewrite (handle_request_keeps _ _ Hr). apply IH.
  - rewrite serve_stopped by done. by left.
Qed.

(** X20. The first GET request that clears the flag decides the delivery
    of the profile: if its body can be written, the serialized profile is
    written once in the run, by that request; if the write fails, the
    profile is not written in the whole run, also when further GET
    requests follow. *)
Theorem first_GET_decides_delivery (g : globals) (data : string)
    (before : list request) (get : request) (after : list request) :
  waiting_for_request g = true → profile_data g = Some data →
  Forall (λ r, clears_flag r = false) before →
  clears_flag get = true →
  bodies (served_trace (serve g (before ++ get :: after)))
  = match request_body_error get with None => [data] | Some _ => [] end.
Proof.
  intros Hw Hd Hb Hg.
  rewrite serve_bodies_before_GET, handle_request_bodies by done.
  by rewrite Hg, Hd.
Qed.

Lemma first_GET_decides_delivery_witness :
  let g := {| waiting_for_request := true; profile_data := Some "{}" |} in
  waiting_for_request g = true ∧ profile_data g = Some "{}" ∧
  Forall (λ r, clears_flag r = false) [plain_request "POST"] ∧
  clears_flag broken_pipe_GET = true ∧
  bodies (served_trace
            (serve g ([plain_request "POST"] ++ broken_pipe_GET
                        :: [GET_request])))
  = [].
Proof.
  cbv zeta.
  assert (Forall (λ r, clears_flag r = false) [plain_request "POST"]) as Hb
    by (repeat constructor).
  split_and!; [reflexivity|reflexivity|exact Hb|reflexivity|].
  exact (first_GET_decides_delivery
           {| waiting_for_request := true; profile_data := Some "{}" |} "{}"
           [plain_request "POST"] broken_pipe_GET [GET_request]
           eq_refl eq_refl Hb eq_refl).
Defined.

(** X21. A handled request is answered with at most one status line, and
    the status lines of a run follow the order of the requests: status
    200 with the JSON content type and the permissive cross-origin header
    for an accepted GET or HEAD, status 501 for any other accepted method,
    the error status for a request the base class rejects; none for an
    HTTP/0.9 request, for a request that is not read, or when the write
    fails. *)
Theorem serve_answers_each_request_once (g : globals)
    (incoming : list request) :
  let s := serve g incoming in
  filter (λ e, is_head e = true) (served_trace s)
  = omap response_head (served_handled s).
Proof.
  revert g. induction incoming as [|r rs IH]; intros g;
    destruct (waiting_for_request g) eqn:Hw; cbv zeta.
  - cbn. by rewrite Hw.
  - by rewrite serve_stopped.
  - rewrite serve_cons by done. cbn [served_trace served_handled].
    rewrite filter_app, handle_request_heads, IH. cbn [omap list_omap].
    by destruct (response_head r).
  - by rewrite serve_stopped.
Qed.

(** ** The whole run *)

Section MainMore.

Variable json_dumps : Profile → string.

Lemma main_closed_form (rest : list string) (lines : list (string * datetime))
    (w : world) :
  world_stdout w = Some lines →
  let data := json_dumps (build_profile (world_time w) (recorded lines)) in
  let s := serve (serving data) (world_requests w) in
  main json_dumps ("--" :: rest) w
  = (Popen (Shlex.join rest)
       :: ((λ p, Print Stdout (Py.drop_last p.1)) <$> lines)
       ++ BrowserOpen (profiler_url (world_port w) ("--" :: rest))
       :: served_trace s,
     match served_end s with Stopped => Returned | Blocked => Waiting end).
Proof.
  intros Hout. unfold main. cbn [bool_decide negb].
  rewrite bool_decide_eq_true_2 by done. cbn [negb].
  rewrite Hout. unfold run_command.
  pose proof (read_lines_echo lines) as He.
  pose proof (read_lines_buffer lines) as Hb.
  destruct (read_lines lines) as [trace buffer]. cbn in He, Hb.
  subst trace buffer. reflexivity.
Qed.

Lemma bodies_echo (lines : list (string * datetime)) :
  bodies ((λ p, Print Stdout (Py.drop_last p.1)) <$> lines) = [].
Proof. induction lines as [|p lines IH]; [done|]. exact IH. Qed.

Lemma serve_end_at_GET before : ∀ g get after,
  waiting_for_request g = true →
  Forall (λ r, clears_flag r = false) before →
  clears_flag get = true →
  served_end (serve g (before ++ get :: after)) = Stopped.
Proof.
  induction before as [|r before IH]; intros g get after Hw Hb Hg.
  - cbn [app]. rewrite serve_cons by done. cbn [served_end].
    by rewrite serve_stopped by (by apply handle_request_clears).
  - apply Forall_cons in Hb as [Hr Hb].
    cbn [app]. rewrite serve_cons by done. cbn [served_end].
    rewrite (handle_request_keeps _ _ Hr). by apply IH.
Qed.

End MainMore.

(** X22. A run with a well-formed command line, stage by stage. The
    command after the separator is spawned first; its lines are echoed;
    then the browser is opened on the profiler URL, whose [name] parameter
    is the percent-encoding of the whole argument list joined by spaces,
    the leading ["--"] included; then requests are served from the
    serialized profile built from the recorded lines. The run ends by
    returning or by waiting for a request, never through [sys.exit]. *)
Theorem main_runs_stages_in_order (json_dumps : Profile → string)
    (rest : list string) (lines : list (string * datetime)) (w : world) :
  world_stdout w = Some lines →
  let data := json_dumps (build_profile (world_time w) (recorded lines)) in
  let s := serve (serving data) (world_requests w) in
  let r := main json_dumps ("--" :: rest) w in
  r.1 = Popen (Shlex.join rest)
          :: ((λ p, Print Stdout (Py.drop_last p.1)) <$> lines)
          ++ BrowserOpen (profiler_url (world_port w) ("--" :: rest))
          :: served_trace s ∧
  r.2 = (match served_end s with Stopped => Returned | Blocked => Waiting end) ∧
  ∀ status, r.2 ≠ Exited status.
Proof.
  intros Hout data s r. subst r.
  rewrite (main_closed_form json_dumps rest lines w Hout). cbn [fst snd].
  split_and!; [done..|]. intros status. by destruct (served_end _).
Qed.

Lemma main_runs_stages_in_order_witness :
  world_stdout quiet_world = Some [] ∧
  main (λ _, "{}") ["--"; "true"] quiet_world
  = ([Popen "true";
      BrowserOpen (profiler_url 8000 ["--"; "true"])], Waiting).
Proof.
  split; [reflexivity|].
  destruct (main_runs_stages_in_order (λ _, "{}") ["true"] [] quiet_world
              eq_refl) as (H1 & H2 & _).
  cbv zeta in H1, H2.
  rewrite (surjective_pairing (main _ _ _)), H1, H2. reflexivity.
Defined.

(** X23. End to end: when the command's output is [lines] and the first
    GET request that clears the flag, possibly preceded by requests that
    do not, can be answered, the run writes the serialized profile exactly
    once, it is the serialization of the profile built from the recorded
    lines, and [main] returns. *)
Theorem main_delivers_the_built_profile (json_dumps : Profile → string)
    (rest : list string) (lines : list (string * datetime)) (w : world)
    (before : list request) (get : request) (after : list request) :
  world_stdout w = Some lines →
  world_requests w = before ++ get :: after →
  Forall (λ r, clears_flag r = false) before →
  clears_flag get = true → request_body_error get = None →
  let r := main json_dumps ("--" :: rest) w in
  bodies r.1
  = [json_dumps (build_profile (world_time w) (recorded lines))] ∧
  r.2 = Returned.
Proof.
  intros Hout Hreq Hb Hg Hok r. subst r.
  rewrite (main_closed_form json_dumps rest lines w Hout). cbn [fst snd].
  rewrite Hreq. split.
  - change (Popen ?c :: ?t) with ([Popen c] ++ t).
    rewrite !bodies_app, bodies_echo.
    change (BrowserOpen ?u :: ?t) with ([BrowserOpen u] ++ t).
    rewrite bodies_app. cbn [bodies omap list_omap app].
    rewrite serve_bodies_before_GET, handle_request_bodies by done.
    by rewrite Hg, Hok.
  - by rewrite serve_end_at_GET.
Qed.

Lemma main_delivers_the_built_profile_witness :
  let w := {| world_stdout := Some []; world_time := 0%Qc;
              world_port := 8000;
              world_requests := [plain_request "POST"; GET_request] |} in
  world_stdout w = Some [] ∧
  world_requests w = [plain_request "POST"] ++ GET_request :: [] ∧
  Forall (λ r, clears_flag r = false) [plain_request "POST"] ∧
  clears_flag GET_request = true ∧
  request_body_error GET_request = None ∧
  bodies (main (λ _, "{}") ["--"; "true"] w).1 = ["{}"] ∧
  (main (λ _, "{}") ["--"; "true"] w).2 = Returned.
Proof.
  cbv zeta.
  assert (Forall (λ r, clears_flag r = false) [plain_request "POST"]) as Hb
    by (repeat constructor).
  destruct (main_delivers_the_built_profile (λ _, "{}") ["true"] []
              {| world_stdout := Some []; world_time := 0%Qc;
                 world_port := 8000;
                 world_requests := [plain_request "POST"; GET_request] |}
              [plain_request "POST"] GET_request [] eq_refl eq_refl Hb
              eq_refl eq_refl)
    as [H1 H2].
  split_and!; [reflexivity|reflexivity|exact Hb|reflexivity|reflexivity
              |exact H1|exact H2].
Defined.

(** X24. A separator with nothing behind it is not a usage error: for the
    argument list [["--"]] no help is printed and the program does not
    exit; the shell is spawned with the empty command line (and, when the
    output stream exists, the browser is opened). *)
Theorem lone_separator_runs_empty_command (json_dumps : Profile → string)
    (w : world) :
  let r := main json_dumps ["--"] w in
  (∃ trace, r.1 = Popen "" :: trace) ∧
  (∀ f, PrintHelp f ∉ r.1) ∧
  (∀ status, r.2 ≠ Exited status) ∧
  (is_Some (world_stdout w) →
   BrowserOpen (profiler_url (world_port w) ["--"]) ∈ r.1).
Proof.
  intros r. subst r. destruct (world_stdout w) as [lines|] eqn:Hout.
  - rewrite (main_closed_form json_dumps [] lines w Hout). cbn [fst snd].
    split_and!.
    + by eexists.
    + intros f [H|H]%elem_of_cons; [done|].
      apply elem_of_app in H as [H|H].
      * apply list_elem_of_fmap in H as (p & Hp & _). done.
      * apply elem_of_cons in H as [H|H]; [done|].
        by apply serve_prints_no_help in H.
    + intros status. by destruct (served_end _).
    + intros _. apply elem_of_cons. right. apply elem_of_app. right. left.
  - unfold main. cbn. rewrite Hout. cbn. split_and!.
    + by eexists.
    + intros f [H|H]%elem_of_cons; [done|]. by apply elem_of_nil in H.
    + done.
    + by intros [? ?].
Qed.

Lemma lone_separator_runs_empty_command_witness :
  is_Some (world_stdout quiet_world) ∧
  BrowserOpen (profiler_url 8000 ["--"])
  ∈ (main (λ _, "{}") ["--"] quiet_world).1.
Proof.
  assert (is_Some (world_stdout quiet_world)) as Hs by (by eexists).
  split; [exact Hs|].
  destruct (lone_separator_runs_empty_command (λ _, "{}") quiet_world)
    as (_ & _ & _ & H).
  exact (H Hs).
Defined.

(** ** Quoting: the command line and the URL *)

Section Quoting.

Implicit Types (s t : string).

Lemma all_app (p : ascii → bool) s t :
  Py.all p (s +:+ t) = Py.all p s && Py.all p t.
Proof.
  induction s as [|a s IH]; [done|]. rewrite string_app_cons. cbn.
  by rewrite IH, andb_assoc.
Qed.

Lemma quote_char_url (a : ascii) :
  Py.all url_char (Urllib.quote (String a "")) = true.
Proof. destruct a as [[] [] [] [] [] [] [] []]; vm_compute; reflexivity. Qed.

Lemma quote_cons a s :
  Urllib.quote (String a s) = Urllib.quote (String a "") +:+ Urllib.quote s.
Proof.
  cbn [Urllib.quote]. by rewrite string_app_assoc, string_app_nil_l.
Qed.

Lemma quote_app s t :
  Urllib.quote (s +:+ t) = Urllib.quote s +:+ Urllib.quote t.
Proof.
  induction s as [|a s IH]; [done|].
  rewrite string_app_cons, (quote_cons a s), (quote_cons a (s +:+ t)), IH.
  by rewrite string_app_assoc.
Qed.

Lemma shlex_quote_plain s : plain_word s = true → Shlex.quote s = s.
Proof.
  intros [Hne Hs]%andb_true_iff. destruct s as [|a s]; [done|].
  unfold Shlex.quote. by rewrite Hs.
Qed.

End Quoting.

(** X25. The percent-encoding used for the URL yields unreserved
    characters and [%] only, and leaves a text made of unreserved
    characters unchanged. *)
Theorem quote_yields_url_characters (s : string) :
  Py.all url_char (Urllib.quote s) = true ∧
  (Py.all Urllib.always_safe s = true → Urllib.quote s = s).
Proof.
  split.
  - induction s as [|a s IH]; [done|].
    by rewrite quote_cons, all_app, quote_char_url, IH.
  - induction s as [|a s IH]; [done|]. cbn [Py.all Urllib.quote].
    intros [Ha Hs]%andb_true_iff. by rewrite Ha, IH.
Qed.

Lemma quote_yields_url_characters_witness :
  Py.all Urllib.always_safe "brew" = true ∧ Urllib.quote "brew" = "brew".
Proof.
  split; [reflexivity|].
  exact (proj2 (quote_yields_url_characters "brew") eq_refl).
Defined.

(** X26. The [name] parameter of the profiler URL is the arguments, each
    percent-encoded, joined by [%20]: encoding distributes over the
    joining of the argument list by spaces. *)
Theorem quote_of_joined_command (command : list string) :
  Urllib.quote (String.concat " " command)
  = String.concat "%20" (Urllib.quote <$> command).
Proof.
  induction command as [|x [|y command] IH]; [done..|].
  change (String.concat " " (x :: y :: command))
    with (x +:+ " " +:+ String.concat " " (y :: command)).
  rewrite !quote_app, IH. reflexivity.
Qed.

(** X27. The command line handed to the shell: an argument is never
    dropped, since no argument is quoted to the empty text; and a command
    made of plain words (non-empty, safe characters only) is spawned as
    those words joined by single spaces. *)
Theorem join_of_plain_words (command : list string) :
  (∀ s, Shlex.quote s ≠ "") ∧
  (Forall (λ s, plain_word s = true) command →
   Shlex.join command = String.concat " " command).
Proof.
  split.
  - intros [|a s]; [done|]. unfold Shlex.quote.
    destruct (Py.all Shlex.safe (String a s)); done.
  - intros Hc. unfold Shlex.join. f_equal.
    induction Hc as [|s command Hs _ IH]; [done|].
    by rewrite fmap_cons, IH, shlex_quote_plain.
Qed.

Lemma join_of_plain_words_witness :
  Forall (λ s, plain_word s = true) ["brew"; "upgrade"] ∧
  Shlex.join ["brew"; "upgrade"] = "brew upgrade".
Proof.
  assert (Forall (λ s, plain_word s = true) ["brew"; "upgrade"]) as Hc
    by (repeat constructor).
  split; [exact Hc|].
  exact (proj2 (join_of_plain_words ["brew"; "upgrade"]) Hc).
Defined.
